(** * Places backend: the place controller over a document store

    A shallow embedding of [controllers/places-controller.js] together
    with the two Mongoose schemas it relies on ([models/place.js] and
    [models/user.js]).  Request handlers are computations in a small
    monad that threads the committed store and an observation log, and
    that distinguishes normal completion, an early [return] and a thrown
    (rejected) error, so that [try]/[catch] blocks read as in the source. *)

From Stdlib Require Import Ascii.
From stdpp Require Import gmap strings list fin_maps.

Local Open Scope string_scope.
Local Open Scope list_scope.
Set Warnings "-register-all".

(** ** Identifiers, errors and JSON values *)

(** Mongo ObjectIds, used in their hexadecimal string form (the form in
    which [req.params.pid] and [req.userData.userId] arrive). *)
Abbreviation ObjectId := string (only parsing).

(** [models/http-error]: an [Error] carrying a status code. *)
Record HttpError := mkHttpError { message : string; code : nat }.

(** Whatever a [catch] clause may receive. *)
Inductive JsError :=
| HttpErr (e : HttpError)
| Err (name : string) (msg : string).

Definition err_message (e : JsError) : string :=
  match e with
  | HttpErr h => message h
  | Err _ m => m
  end.

(** JavaScript values as far as the controller builds them. *)
Inductive json :=
| JUndefined
| JNull
| JStr (s : string)
| JArr (xs : list json)
| JObj (fields : list (string * json)).

(** Property read [o[k]]; a missing property reads as [undefined]. *)
Fixpoint assoc (k : string) (fs : list (string * json)) : json :=
  match fs with
  | [] => JUndefined
  | (k', v) :: fs' => if String.eqb k k' then v else assoc k fs'
  end.

Definition get (k : string) (o : json) : json :=
  match o with
  | JObj fs => assoc k fs
  | _ => JUndefined
  end.

(** Property write [o[k] = v] on a property list: an existing property
    keeps its position, a new one goes last. *)
Fixpoint assign (k : string) (v : json) (fs : list (string * json))
  : list (string * json) :=
  match fs with
  | [] => [(k, v)]
  | (k', v') :: fs' =>
      if String.eqb k k' then (k, v) :: fs' else (k', v') :: assign k v fs'
  end.

(** Object spread with one overriding property: [{...o, k: v}]. *)
Definition spread_with (o : json) (k : string) (v : json) : json :=
  match o with
  | JObj fs => JObj (assign k v fs)
  | _ => JObj [(k, v)]
  end.

(** What [JSON.stringify] keeps of a value: properties whose value is
    [undefined] are dropped from objects, and [undefined] array elements
    become [null]. *)
Fixpoint JSON_stringify (j : json) : json :=
  match j with
  | JArr xs =>
      JArr (map (fun x => match JSON_stringify x with
                          | JUndefined => JNull
                          | y => y
                          end) xs)
  | JObj fs =>
      JObj (flat_map (fun kv => match JSON_stringify (snd kv) with
                                | JUndefined => []
                                | y => [(fst kv, y)]
                                end) fs)
  | _ => j
  end.

(** [has_key k j]: some object inside [j] has a property named [k]. *)
Fixpoint has_key (k : string) (j : json) : bool :=
  match j with
  | JArr xs => existsb (has_key k) xs
  | JObj fs => existsb (fun kv => String.eqb k (fst kv) || has_key k (snd kv)) fs
  | _ => false
  end.

(** ** Schemas and stored documents *)

(** Options of a schema path, as written in the [Schema] literals. *)
Record PathOptions := mkPath { required : bool; select : bool }.

(** A String/ObjectId path with [required: true]; [select] is on unless
    the schema says otherwise. *)
Definition req_path : PathOptions := mkPath true true.
Definition opt_path : PathOptions := mkPath false true.
Definition hidden (o : PathOptions) : PathOptions := mkPath (required o) false.

(** The paths of [placeSchema], carrying a value of type [A] each. *)
Record placePaths (A : Type) := mkPlacePaths {
  title : A;
  description : A;
  image_url : A;
  image_fileId : A;
  address : A;
  location_lat : A;
  location_lng : A;
  creator : A
}.
Arguments mkPlacePaths {A}.
Arguments title {A}.
Arguments description {A}.
Arguments image_url {A}.
Arguments image_fileId {A}.
Arguments address {A}.
Arguments location_lat {A}.
Arguments location_lng {A}.
Arguments creator {A}.

(** [models/place.js] *)
Definition placeSchema : placePaths PathOptions := {|
  title := req_path;
  description := req_path;
  image_url := req_path;
  image_fileId := hidden req_path;
  address := req_path;
  location_lat := req_path;
  location_lng := req_path;
  creator := req_path
|}.

(** The paths of [userSchema]. *)
Record userPaths (A : Type) := mkUserPaths {
  name : A;
  email : A;
  password : A;
  user_image_url : A;
  user_image_fileId : A;
  user_places : A
}.
Arguments mkUserPaths {A}.
Arguments name {A}.
Arguments email {A}.
Arguments password {A}.
Arguments user_image_url {A}.
Arguments user_image_fileId {A}.
Arguments user_places {A}.

(** [models/user.js] *)
Definition userSchema : userPaths PathOptions := {|
  name := req_path;
  email := req_path;
  password := hidden req_path;
  user_image_url := opt_path;
  user_image_fileId := hidden opt_path;
  user_places := opt_path
|}.

(** A stored Place; its [_id] is its key in the collection. *)
Record Place := mkPlace {
  p_title : string;
  p_description : string;
  p_image_url : string;
  p_image_fileId : string;
  p_address : string;
  p_lat : string;
  p_lng : string;
  p_creator : ObjectId
}.

(** A stored User; the image is optional. *)
Record User := mkUser {
  u_name : string;
  u_email : string;
  u_password : string;
  u_image_url : option string;
  u_image_fileId : option string;
  u_places : list ObjectId
}.

(** The two collections, as committed. *)
Record Store := mkStore {
  places : gmap string Place;
  users : gmap string User
}.

(** ** Documents as a query hands them to the controller *)

(** Which paths a query selected.  Without [.select], a query selects
    the paths whose schema option [select] is on. *)
Definition default_place_fields : placePaths bool := {|
  title := select (title placeSchema);
  description := select (description placeSchema);
  image_url := select (image_url placeSchema);
  image_fileId := select (image_fileId placeSchema);
  address := select (address placeSchema);
  location_lat := select (location_lat placeSchema);
  location_lng := select (location_lng placeSchema);
  creator := select (creator placeSchema)
|}.

Definition default_user_fields : userPaths bool := {|
  name := select (name userSchema);
  email := select (email userSchema);
  password := select (password userSchema);
  user_image_url := select (user_image_url userSchema);
  user_image_fileId := select (user_image_fileId userSchema);
  user_places := select (user_places userSchema)
|}.

(** [.select("image.fileId")] followed by [.populate("creator")]: an
    inclusive projection keeps the named path (here a path that is
    hidden by default) and the populated path, and nothing else. *)
Definition fileId_and_creator_fields : placePaths bool := {|
  title := false;
  description := false;
  image_url := false;
  image_fileId := true;
  address := false;
  location_lat := false;
  location_lng := false;
  creator := true
|}.

(** A document built by [new Place({...})] holds every path it was given. *)
Definition all_place_fields : placePaths bool :=
  mkPlacePaths true true true true true true true true.

(** A hydrated User document. *)
Record UserDocument := mkUserDocument {
  ud_id : ObjectId;
  ud_doc : User;
  ud_fields : userPaths bool
}.

(** A hydrated Place document.  [pd_populated] is [None] while
    [creator] is still an ObjectId, and [Some r] once it was populated:
    [r] is the referenced user, or [None] ([null]) if there is none. *)
Record PlaceDocument := mkPlaceDocument {
  pd_id : ObjectId;
  pd_doc : Place;
  pd_fields : placePaths bool;
  pd_populated : option (option UserDocument)
}.

(** A User document whose [places] were populated. *)
Record UserWithPlaces := mkUserWithPlaces {
  uwp_user : UserDocument;
  uwp_places : list PlaceDocument
}.

(** ** [toObject({ getters: true })]

    The selected paths of a document, with [_id] and the [id] getter;
    the version key is left out. *)

Definition field (sel : bool) (k : string) (v : json) : list (string * json) :=
  if sel then [(k, v)] else [].

Definition opt_field (sel : bool) (k : string) (v : option string)
  : list (string * json) :=
  match v with
  | Some s => field sel k (JStr s)
  | None => []
  end.

(** A nested path with no selected member is left out altogether. *)
Definition nested (k : string) (fs : list (string * json)) : list (string * json) :=
  match fs with
  | [] => []
  | _ => [(k, JObj fs)]
  end.

(** The properties of a User document; [ps] is what [places] holds
    (ObjectIds, or documents after [populate]). *)
Definition user_properties (d : UserDocument) (ps : json) : json :=
  let u := ud_doc d in
  let f := ud_fields d in
  JObj ([("_id", JStr (ud_id d))]
        ++ field (name f) "name" (JStr (u_name u))
        ++ field (email f) "email" (JStr (u_email u))
        ++ field (password f) "password" (JStr (u_password u))
        ++ nested "image"
             (opt_field (user_image_url f) "url" (u_image_url u)
              ++ opt_field (user_image_fileId f) "fileId" (u_image_fileId u))
        ++ field (user_places f) "places" ps
        ++ [("id", JStr (ud_id d))]).

Definition user_toObject (d : UserDocument) : json :=
  user_properties d (JArr (map JStr (u_places (ud_doc d)))).

Definition creator_value (d : PlaceDocument) : json :=
  match pd_populated d with
  | None => JStr (p_creator (pd_doc d))
  | Some None => JNull
  | Some (Some u) => user_toObject u
  end.

Definition place_toObject (d : PlaceDocument) : json :=
  let p := pd_doc d in
  let f := pd_fields d in
  JObj ([("_id", JStr (pd_id d))]
        ++ field (title f) "title" (JStr (p_title p))
        ++ field (description f) "description" (JStr (p_description p))
        ++ nested "image"
             (field (image_url f) "url" (JStr (p_image_url p))
              ++ field (image_fileId f) "fileId" (JStr (p_image_fileId p)))
        ++ field (address f) "address" (JStr (p_address p))
        ++ nested "location"
             (field (location_lat f) "lat" (JStr (p_lat p))
              ++ field (location_lng f) "lng" (JStr (p_lng p)))
        ++ field (creator f) "creator" (creator_value d)
        ++ [("id", JStr (pd_id d))]).

Definition userWithPlaces_toObject (d : UserWithPlaces) : json :=
  user_properties (uwp_user d) (JArr (map place_toObject (uwp_places d))).

(** ** Requests, collaborators and observations *)

(** What the controller reads of an incoming request.  [validation_errors]
    lists the [param] of every failed express-validator check;
    [file_buffer] is [req.file.buffer], absent when no file was sent. *)
Record Request := mkRequest {
  validation_errors : list string;
  body_title : string;
  body_description : string;
  body_address : string;
  file_buffer : option string;
  params_pid : ObjectId;
  params_username : string;
  userData_userId : ObjectId
}.

(** Result of [util/location]. *)
Record Coordinates := mkCoordinates {
  c_lat : string;
  c_lng : string;
  c_address : string
}.

(** Result of [imagekit.upload]. *)
Record UploadResult := mkUploadResult {
  r_url : string;
  r_fileId : string
}.

(** The awaited calls on the store. *)
Inductive DbCall :=
| PlaceFind
| PlaceFindById
| UserFindOne
| UserFindById
| StartSession
| PlaceSave
| PlaceRemove
| UserSave
| CommitTransaction.

(** The collaborators of one request: the geocoder, the image store,
    the ObjectId given to a [new Place], and which store calls reject. *)
Record Env := mkEnv {
  getCoordinatesForAddress : string -> JsError + Coordinates;
  imagekit_upload : string -> string -> JsError + UploadResult;
  imagekit_deleteFile : string -> option JsError;
  new_ObjectId : ObjectId;
  rejects : DbCall -> bool
}.

(** What a request does that can be seen from outside, in order. *)
Inductive Event :=
| Geocode (addr : string)
| Upload (fileName : string)
| DeleteFile (fileId : string)
| ConsoleLog
| Db (c : DbCall)
| Next (e : JsError)
| Respond (status : nat) (body : json).

Record World := mkWorld {
  db : Store;
  log : list Event
}.

(** ** The handler monad *)

Inductive Completion (A : Type) :=
| Normal (a : A)
| Return
| Throw (e : JsError).
Arguments Normal {A}.
Arguments Return {A}.
Arguments Throw {A}.

Definition Async (A : Type) : Type := World -> World * Completion A.

#[export] Instance Async_ret : MRet Async := fun A a w => (w, Normal a).

#[export] Instance Async_bind : MBind Async := fun A B k m w =>
  match m w with
  | (w', Normal a) => k a w'
  | (w', Return) => (w', Return)
  | (w', Throw e) => (w', Throw e)
  end.

Definition throw {A} (e : JsError) : Async A := fun w => (w, Throw e).

(** [return m;] *)
Definition return_ {A} (m : Async unit) : Async A :=
  fun w =>
    match m w with
    | (w', Normal _) => (w', Return)
    | (w', Return) => (w', Return)
    | (w', Throw e) => (w', Throw e)
    end.

(** [try { m } catch (e) { h e }] *)
Definition try_catch {A} (m : Async A) (h : JsError -> Async A) : Async A :=
  fun w =>
    match m w with
    | (w', Throw e) => h e w'
    | r => r
    end.

Definition emit (ev : Event) : Async unit :=
  fun w => (mkWorld (db w) (log w ++ [ev]), Normal tt).

Definition read_db : Async Store := fun w => (w, Normal (db w)).

Definition write_db (s : Store) : Async unit :=
  fun w => (mkWorld s (log w), Normal tt).

Definition next (e : JsError) : Async unit := emit (Next e).
Definition console_log : Async unit := emit ConsoleLog.
Definition res_status_json (status : nat) (body : json) : Async unit :=
  emit (Respond status (JSON_stringify body)).
Definition res_json (body : json) : Async unit := res_status_json 200 body.

Definition TypeError (msg : string) : JsError := Err "TypeError" msg.

(** ** Small pieces of JavaScript *)

(** [String.prototype.toLowerCase], on the ASCII letters. *)
Definition lower_ascii (c : ascii) : ascii :=
  let n := nat_of_ascii c in
  if (65 <=? n)%nat && (n <=? 90)%nat then ascii_of_nat (n + 32) else c.

Fixpoint toLowerCase (s : string) : string :=
  match s with
  | EmptyString => EmptyString
  | String c s' => String (lower_ascii c) (toLowerCase s')
  end.

(** An array inside a template literal: its elements joined by commas. *)
Fixpoint join_comma (xs : list string) : string :=
  match xs with
  | [] => EmptyString
  | [x] => x
  | x :: xs' => x +:+ "," +:+ join_comma xs'
  end.

(** Truthiness of an array: every array is truthy, the empty one too. *)
Definition truthy_array {A} (xs : list A) : bool := true.

(** ** The store as Mongoose drives it *)

(** Writes made under a session are buffered in it and reach the
    committed store together, on [commitTransaction].  The controller
    never aborts or ends a session: the writes of a transaction that
    is not committed simply never reach the store. *)
Inductive WriteOp :=
| InsertPlace (id : ObjectId) (p : Place)
| DeletePlace (id : ObjectId)
| UpdateUserPlaces (id : ObjectId) (ps : list ObjectId).

Definition set_places (ps : list ObjectId) (u : User) : User :=
  mkUser (u_name u) (u_email u) (u_password u) (u_image_url u)
         (u_image_fileId u) ps.

Definition set_title_description (t d : string) (p : Place) : Place :=
  mkPlace t d (p_image_url p) (p_image_fileId p) (p_address p)
          (p_lat p) (p_lng p) (p_creator p).

Definition apply_write (s : Store) (o : WriteOp) : Store :=
  match o with
  | InsertPlace id p => mkStore (<[id := p]> (places s)) (users s)
  | DeletePlace id => mkStore (delete id (places s)) (users s)
  | UpdateUserPlaces id ps => mkStore (places s) (alter (set_places ps) id (users s))
  end.

Abbreviation ClientSession := (list WriteOp) (only parsing).

Definition hydrate_user (id : ObjectId) (u : User) : UserDocument :=
  mkUserDocument id u default_user_fields.

Definition hydrate_place (id : ObjectId) (p : Place) : PlaceDocument :=
  mkPlaceDocument id p default_place_fields None.

(** [populate("creator")]: the referenced user, or [null]. *)
Definition populate_creator (s : Store) (d : PlaceDocument) : PlaceDocument :=
  mkPlaceDocument (pd_id d) (pd_doc d) (pd_fields d)
    (Some (hydrate_user (p_creator (pd_doc d)) <$> users s !! p_creator (pd_doc d))).

(** [populate("places")]: the referenced places; ids that resolve to
    nothing are left out of the populated array. *)
Definition populate_places (s : Store) (d : UserDocument) : UserWithPlaces :=
  mkUserWithPlaces d
    (omap (fun id => hydrate_place id <$> places s !! id) (u_places (ud_doc d))).

Section Controller.

Variable env : Env.

(** An awaited store call: it is observed, and it rejects when the
    environment says so. *)
Definition await_db (c : DbCall) : Async unit :=
  emit (Db c);;
  if rejects env c then throw (Err "MongoError" "store call rejected") else mret tt.

(** [Place.find().populate("creator")] *)
Definition Place_find_populate : Async (list PlaceDocument) :=
  await_db PlaceFind;;
  s ← read_db;
  mret (map (fun kv => populate_creator s (hydrate_place (fst kv) (snd kv)))
            (map_to_list (places s))).

(** [Place.findById(id)] *)
Definition Place_findById (id : ObjectId) : Async (option PlaceDocument) :=
  await_db PlaceFindById;;
  s ← read_db;
  mret (hydrate_place id <$> places s !! id).

(** [Place.findById(id).select("image.fileId").populate("creator")] *)
Definition Place_findById_select_populate (id : ObjectId)
  : Async (option PlaceDocument) :=
  await_db PlaceFindById;;
  s ← read_db;
  mret ((fun p => populate_creator s
                    (mkPlaceDocument id p fileId_and_creator_fields None))
          <$> places s !! id).

(** [User.findOne({ name }).populate("places")] *)
Definition User_findOne_populate (username : string) : Async (option UserWithPlaces) :=
  await_db UserFindOne;;
  s ← read_db;
  mret ((fun kv => populate_places s (hydrate_user (fst kv) (snd kv)))
          <$> head (filter (fun kv => u_name (snd kv) = username)
                           (map_to_list (users s)))).

(** [User.findById(id)] *)
Definition User_findById (id : ObjectId) : Async (option UserDocument) :=
  await_db UserFindById;;
  s ← read_db;
  mret (hydrate_user id <$> users s !! id).

(** [mongoose.startSession()] then [sess.startTransaction()] *)
Definition mongoose_startSession : Async ClientSession :=
  await_db StartSession;;
  mret [].

(** [doc.save({ session })] of a new Place: an insert, which the unique
    index on [_id] refuses when the id is taken. *)
Definition insert_place (sess : ClientSession) (d : PlaceDocument)
  : Async ClientSession :=
  await_db PlaceSave;;
  s ← read_db;
  match places s !! pd_id d with
  | Some _ => throw (Err "MongoError" "E11000 duplicate key error")
  | None => mret (sess ++ [InsertPlace (pd_id d) (pd_doc d)])
  end.

(** [place.remove({ session })] *)
Definition remove_place (sess : ClientSession) (d : PlaceDocument)
  : Async ClientSession :=
  await_db PlaceRemove;;
  mret (sess ++ [DeletePlace (pd_id d)]).

(** [user.save({ session })]: the modified path is [places]. *)
Definition save_user (sess : ClientSession) (d : UserDocument)
  : Async ClientSession :=
  await_db UserSave;;
  mret (sess ++ [UpdateUserPlaces (ud_id d) (u_places (ud_doc d))]).

(** [sess.commitTransaction()] *)
Definition sess_commitTransaction (sess : ClientSession) : Async unit :=
  await_db CommitTransaction;;
  s ← read_db;
  write_db (foldl apply_write s sess).

(** [place.save()] outside any session, after [title] and [description]
    were assigned: these two paths are written at once. *)
Definition save_place (d : PlaceDocument) : Async unit :=
  await_db PlaceSave;;
  s ← read_db;
  write_db (mkStore
              (alter (set_title_description (p_title (pd_doc d))
                                            (p_description (pd_doc d)))
                     (pd_id d) (places s))
              (users s)).

(** [user.places.push(place)] and [user.places.pull(place)] *)
Definition places_push (d : UserDocument) (id : ObjectId) : UserDocument :=
  mkUserDocument (ud_id d) (set_places (u_places (ud_doc d) ++ [id]) (ud_doc d))
                 (ud_fields d).

Definition places_pull (d : UserDocument) (id : ObjectId) : UserDocument :=
  mkUserDocument (ud_id d)
    (set_places (filter (fun x => x ≠ id) (u_places (ud_doc d))) (ud_doc d))
    (ud_fields d).

(** [getCoordinatesForAddress(address)] *)
Definition geocode (addr : string) : Async Coordinates :=
  emit (Geocode addr);;
  match getCoordinatesForAddress env addr with
  | inl e => throw e
  | inr c => mret c
  end.

(** [imagekit.upload({ file: req.file.buffer, fileName, ... })]; reading
    [buffer] off a missing [req.file] throws before anything is sent. *)
Definition upload (file : option string) (fileName : string) : Async UploadResult :=
  match file with
  | None => throw (TypeError "Cannot read property 'buffer' of undefined")
  | Some buffer =>
      emit (Upload fileName);;
      match imagekit_upload env buffer fileName with
      | inl e => throw e
      | inr r => mret r
      end
  end.

(** [imagekit.deleteFile(fileId, callback)]: the request is sent now; the
    callback, which only logs, runs later. *)
Definition deleteFile (fileId : string) : Async unit := emit (DeleteFile fileId).

Definition deleteFile_callback (fileId : string) : Async unit :=
  match imagekit_deleteFile env fileId with
  | Some _ => console_log
  | None => mret tt
  end.

(** ** The request handlers of [places-controller.js] *)

Definition http_error (msg : string) (status : nat) : JsError :=
  HttpErr (mkHttpError msg status).

(** [`Invalid input of ${errorInputs}`], status 422 *)
Definition invalid_input (req : Request) : JsError :=
  http_error ("Invalid input of " +:+ join_comma (validation_errors req)) 422.

Definition getAllPlaces (req : Request) : Async unit :=
  found ← try_catch Place_find_populate
            (fun err => return_ (next (http_error "Could not find any place." 404)));
  (if negb (truthy_array found)
   then return_ (next (http_error "Could not find any place." 404))
   else mret tt);;
  res_json (JObj [("places", JArr (map place_toObject found))]).

Definition getPlaceById (req : Request) : Async unit :=
  let placeId := params_pid req in
  place ← try_catch (Place_findById placeId)
            (fun err => return_ (next (http_error
               "Something went wrong, could not find a place." 500)));
  match place with
  | None =>
      return_ (next (http_error
        "Could not find a place for the provided place id." 404))
  | Some place =>
      res_json (JObj [("place", place_toObject place)])
  end.

Definition getPlacesByUserId (req : Request) : Async unit :=
  let username := params_username req in
  userWithPlaces ← try_catch (User_findOne_populate username)
            (fun err => return_ (next (http_error
               "Fetching places failed, please try again." 404)));
  match userWithPlaces with
  | None =>
      return_ (next (http_error "Could not find a place with that user id." 404))
  | Some userWithPlaces =>
      if bool_decide (length (uwp_places userWithPlaces) = 0%nat)
      then return_ (next (http_error
             "Could not find a place with that user id." 404))
      else res_json (JObj [("data", userWithPlaces_toObject userWithPlaces)])
  end.

Definition createPlace (req : Request) : Async unit :=
  (if bool_decide (validation_errors req ≠ [])
   then console_log;; return_ (next (invalid_input req))
   else mret tt);;
  let title := body_title req in
  let description := body_description req in
  let address := body_address req in
  coordinates ← try_catch (geocode address)
            (fun error => return_ (next error));
  result ← try_catch (upload (file_buffer req) (toLowerCase title))
            (fun err => return_ (next (http_error (err_message err) 500)));
  let imageUrl := r_url result in
  let fileId := r_fileId result in
  let createdPlace :=
    mkPlaceDocument (new_ObjectId env)
      (mkPlace title description imageUrl fileId (c_address coordinates)
               (c_lat coordinates) (c_lng coordinates) (userData_userId req))
      all_place_fields None in
  user ← try_catch (User_findById (userData_userId req))
            (fun err => return_ (next (http_error
               "Could not find a user with the provided id." 404)));
  match user with
  | None =>
      return_ (next (http_error "Could not find a user with the provided id." 404))
  | Some user =>
      try_catch
        (sess ← mongoose_startSession;
         sess ← insert_place sess createdPlace;
         let user := places_push user (pd_id createdPlace) in
         sess ← save_user sess user;
         sess_commitTransaction sess)
        (fun err =>
           console_log;;
           return_ (next (http_error
             "Creating place failed, please try again." 500)));;
      let place := place_toObject createdPlace in
      let place :=
        spread_with place "image"
          (JObj [("url", get "url" (get "image" place)); ("fileId", JUndefined)]) in
      res_status_json 201 (JObj [("place", place)])
  end.

Definition updatePlace (req : Request) : Async unit :=
  (if bool_decide (validation_errors req ≠ [])
   then return_ (next (invalid_input req))
   else mret tt);;
  let placeId := params_pid req in
  let title := body_title req in
  let description := body_description req in
  place ← try_catch (Place_findById placeId)
            (fun err => return_ (next (http_error
               "Could not find a place for the provided place id." 500)));
  match place with
  | None =>
      (* [place.creator] is read without a null check *)
      throw (TypeError "Cannot read property 'creator' of null")
  | Some place =>
      if bool_decide (p_creator (pd_doc place) ≠ userData_userId req)
      then return_ (next (http_error "You are not allowed to edit this place." 401))
      else
        let place :=
          mkPlaceDocument (pd_id place)
            (set_title_description title description (pd_doc place))
            (pd_fields place) (pd_populated place) in
        try_catch (save_place place)
          (fun err => return_ (next (http_error
             "Something went wrong, could not update place." 500)));;
        res_status_json 200 (JObj [("place", place_toObject place)])
  end.

Definition deletePlace (req : Request) : Async unit :=
  let placeId := params_pid req in
  place ← try_catch (Place_findById_select_populate placeId)
            (fun err => return_ (next (http_error
               "Could not find a place for the provided id." 404)));
  match place with
  | None =>
      return_ (next (http_error "Could not find a place for the provided id." 404))
  | Some place =>
      match pd_populated place with
      | Some (Some owner) =>
          if bool_decide (ud_id owner ≠ userData_userId req)
          then return_ (next (http_error
                 "You are not allowed to delete this place." 401))
          else
            let fileId := p_image_fileId (pd_doc place) in
            try_catch
              (sess ← mongoose_startSession;
               sess ← remove_place sess place;
               let owner := places_pull owner (pd_id place) in
               sess ← save_user sess owner;
               sess_commitTransaction sess)
              (fun err => return_ (next (http_error
                 "Could not find a place for the provided id." 500)));;
            deleteFile fileId;;
            res_json (JObj [("message", JStr "Deleted place.")]);;
            deleteFile_callback fileId
      | _ =>
          (* [place.creator] was populated with [null]: no such user *)
          throw (TypeError "Cannot read property 'id' of null")
      end
  end.

End Controller.

(** Running a handler on a committed store, with nothing observed yet. *)
Definition run (h : Async unit) (s : Store) : World * Completion unit :=
  h (mkWorld s []).

Definition store_after (h : Async unit) (s : Store) : Store := db (fst (run h s)).
Definition log_of (h : Async unit) (s : Store) : list Event := log (fst (run h s)).

(** What the client is answered: [next(error)] and [res.json(...)]. *)
Definition is_reply (ev : Event) : bool :=
  match ev with
  | Next _ | Respond _ _ => true
  | _ => false
  end.

Definition replies (h : Async unit) (s : Store) : list Event :=
  filter (fun ev => is_reply ev = true) (log_of h s).

(** ** Vocabulary of the specification *)

(** Bidirectional referential integrity: every place names an existing
    creator who lists it, and every listed id is a place of that user. *)
Definition integrity (s : Store) : Prop :=
  (∀ pid p, places s !! pid = Some p →
     ∃ u, users s !! p_creator p = Some u ∧ pid ∈ u_places u) ∧
  (∀ uid u pid, users s !! uid = Some u → pid ∈ u_places u →
     ∃ p, places s !! pid = Some p ∧ p_creator p = uid).

(** How often [id] occurs in a list of references. *)
Definition occurrences (id : ObjectId) (l : list ObjectId) : nat :=
  length (filter (fun x => x = id) l).

(** Calls that leave the process: geocoder, image store, document store. *)
Definition is_call (ev : Event) : bool :=
  match ev with
  | Geocode _ | Upload _ | DeleteFile _ | Db _ => true
  | _ => false
  end.

Definition calls (h : Async unit) (s : Store) : list Event :=
  filter (fun ev => is_call ev = true) (log_of h s).

(** The calls of a complete [createPlace], in program order. *)
Definition createPlace_calls (req : Request) : list Event :=
  [Geocode (body_address req); Upload (toLowerCase (body_title req));
   Db UserFindById; Db StartSession; Db PlaceSave; Db UserSave;
   Db CommitTransaction].

(** The upload step throws: [req.file] is missing, or ImageKit refuses. *)
Definition upload_fails (env : Env) (req : Request) : Prop :=
  match file_buffer req with
  | None => True
  | Some b =>
      ∃ e, imagekit_upload env b (toLowerCase (body_title req)) = inl e
  end.

(** The same collaborators, with another fate for [deleteFile]. *)
Definition with_deleteFile (f : string -> option JsError) (env : Env) : Env :=
  mkEnv (getCoordinatesForAddress env) (imagekit_upload env) f
        (new_ObjectId env) (rejects env).

(** The place [createPlace] builds from the request, the geocoder's
    answer [c] and the image store's answer [r]. *)
Definition created_place (req : Request) (c : Coordinates) (r : UploadResult) : Place :=
  mkPlace (body_title req) (body_description req) (r_url r) (r_fileId r)
          (c_address c) (c_lat c) (c_lng c) (userData_userId req).

(** The body of its 201 answer, as sent. *)
Definition created_response (env : Env) (req : Request) (c : Coordinates)
           (r : UploadResult) : json :=
  JObj [("place",
     JObj [("_id", JStr (new_ObjectId env));
           ("title", JStr (body_title req));
           ("description", JStr (body_description req));
           ("image", JObj [("url", JStr (r_url r))]);
           ("address", JStr (c_address c));
           ("location", JObj [("lat", JStr (c_lat c)); ("lng", JStr (c_lng c))]);
           ("creator", JStr (userData_userId req));
           ("id", JStr (new_ObjectId env))])].

(** [createPlace] reaches its commit: the input is valid, geocoder and
    image store answer, the caller exists, the new id is free, and no
    store call rejects. *)
Definition create_commits (env : Env) (req : Request) (s : Store)
           (c : Coordinates) (r : UploadResult) (u : User) : Prop :=
  validation_errors req = [] ∧
  getCoordinatesForAddress env (body_address req) = inr c ∧
  (∃ b, file_buffer req = Some b ∧
        imagekit_upload env b (toLowerCase (body_title req)) = inr r) ∧
  users s !! userData_userId req = Some u ∧
  places s !! new_ObjectId env = None ∧
  rejects env UserFindById = false ∧
  rejects env StartSession = false ∧
  rejects env PlaceSave = false ∧
  rejects env UserSave = false ∧
  rejects env CommitTransaction = false.

(** [deletePlace] reaches its commit: the place is found together with
    its owner, the caller is that owner, and no store call rejects. *)
Definition delete_commits (env : Env) (req : Request) (s : Store) (p : Place) (u : User)
  : Prop :=
  places s !! params_pid req = Some p ∧
  users s !! p_creator p = Some u ∧
  p_creator p = userData_userId req ∧
  rejects env PlaceFindById = false ∧
  rejects env StartSession = false ∧
  rejects env PlaceRemove = false ∧
  rejects env UserSave = false ∧
  rejects env CommitTransaction = false.

(** The property names that must never be sent: the image storage
    handle and the password. *)
Definition secret (k : string) : Prop := k = "fileId" ∨ k = "password".

(** [j], once serialized, has no property named [k] at any depth. *)
Definition hides (k : string) (j : json) : Prop :=
  has_key k (JSON_stringify j) = false.

(** Every body a handler sends is free of the secret property names. *)
Definition answers_hide_secrets (h : Async unit) (s : Store) : Prop :=
  ∀ status body k, Respond status body ∈ log_of h s → secret k →
                   has_key k body = false.

(** The errors the controller hands to [next]. *)
Definition creation_failed : Event :=
  Next (http_error "Creating place failed, please try again." 500).
Definition creator_not_found : Event :=
  Next (http_error "Could not find a user with the provided id." 404).
Definition not_allowed_to_edit : Event :=
  Next (http_error "You are not allowed to edit this place." 401).
Definition not_allowed_to_delete : Event :=
  Next (http_error "You are not allowed to delete this place." 401).
Definition deleted : Event :=
  Respond 200 (JObj [("message", JStr "Deleted place.")]).

Definition place_lookup_failed : Event :=
  Next (http_error "Something went wrong, could not find a place." 500).
Definition place_not_found : Event :=
  Next (http_error "Could not find a place for the provided place id." 404).
Definition no_places_for_user : Event :=
  Next (http_error "Could not find a place with that user id." 404).
Definition update_failed : Event :=
  Next (http_error "Something went wrong, could not update place." 500).
Definition delete_not_found : Event :=
  Next (http_error "Could not find a place for the provided id." 404).
Definition delete_failed : Event :=
  Next (http_error "Could not find a place for the provided id." 500).

(** A place as the read handlers send it: every path but [image.fileId],
    with [creator] as an id. *)
Definition place_json (id : ObjectId) (p : Place) : json :=
  JObj [("_id", JStr id);
        ("title", JStr (p_title p));
        ("description", JStr (p_description p));
        ("image", JObj [("url", JStr (p_image_url p))]);
        ("address", JStr (p_address p));
        ("location", JObj [("lat", JStr (p_lat p)); ("lng", JStr (p_lng p))]);
        ("creator", JStr (p_creator p));
        ("id", JStr id)].

(** [updatePlace] reaches its write: valid input, the place is found,
    and the caller is its creator. *)
Definition update_writes (env : Env) (req : Request) (s : Store) (p : Place) : Prop :=
  validation_errors req = [] ∧
  rejects env PlaceFindById = false ∧
  places s !! params_pid req = Some p ∧
  p_creator p = userData_userId req.

(** ** A small concrete store, for examples *)

Module Sample.

Definition ann : User :=
  mkUser "ann" "ann@example.org" "hunter22"
         (Some "https://ik.imagekit.io/places/ann.jpg") (Some "file-ann") ["p1"].

Definition bob : User :=
  mkUser "bob" "bob@example.org" "correct-horse" None None [].

Definition office : Place :=
  mkPlace "Office" "HQ" "https://ik.imagekit.io/places/office.jpg" "file-office"
          "1600 Amphitheatre Pkwy" "37.422" "-122.084" "u1".

(** Ann (id [u1]) owns the one place [p1]; Bob (id [u2]) owns nothing. *)
Definition store : Store :=
  mkStore {[ "p1" := office ]} (<[ "u1" := ann ]> {[ "u2" := bob ]}).

Definition empty_store : Store := mkStore ∅ ∅.

(** Collaborators that all succeed; the next [new Place] gets id [p2]. *)
Definition env : Env :=
  mkEnv (fun a => inr (mkCoordinates "37.422" "-122.084" a))
        (fun _ n => inr (mkUploadResult ("https://ik.imagekit.io/places/" +:+ n)
                                        ("file-" +:+ n)))
        (fun _ => None)
        "p2"
        (fun _ => false).

Definition env_geocoder_down : Env :=
  mkEnv (fun _ => inl (http_error "Could not find location for the address." 422))
        (imagekit_upload env) (imagekit_deleteFile env) (new_ObjectId env)
        (rejects env).

Definition env_upload_refused : Env :=
  mkEnv (getCoordinatesForAddress env)
        (fun _ _ => inl (Err "Error" "Your request contains invalid file."))
        (imagekit_deleteFile env) (new_ObjectId env) (rejects env).

(** The store refuses the second write of the transaction. *)
Definition env_user_save_rejected : Env :=
  mkEnv (getCoordinatesForAddress env) (imagekit_upload env)
        (imagekit_deleteFile env) (new_ObjectId env)
        (fun c => match c with UserSave => true | _ => false end).

(** A request on place [pid] by the authenticated user [uid]. *)
Definition request (pid uid : ObjectId) : Request :=
  mkRequest [] "Cafe" "Good coffee" "12 Main St" (Some "jpeg-bytes") pid "ann" uid.

(** The same with an empty title, which the validators reject. *)
Definition invalid_request (pid uid : ObjectId) : Request :=
  mkRequest ["title"] EmptyString "Good coffee" "12 Main St" (Some "jpeg-bytes") pid "ann" uid.

(** The store refuses to look places up, or to save one. *)
Definition env_lookup_rejected : Env :=
  mkEnv (getCoordinatesForAddress env) (imagekit_upload env)
        (imagekit_deleteFile env) (new_ObjectId env)
        (fun c => match c with PlaceFindById => true | _ => false end).

Definition env_place_save_rejected : Env :=
  mkEnv (getCoordinatesForAddress env) (imagekit_upload env)
        (imagekit_deleteFile env) (new_ObjectId env)
        (fun c => match c with PlaceSave => true | _ => false end).

(** A store in which place [p1] names a creator that does not exist. *)
Definition store_without_ann : Store :=
  mkStore {[ "p1" := office ]} {[ "u2" := bob ]}.

End Sample.

(** ** Reasoning about handlers: weakest preconditions *)

(** [wp m w Q]: running [m] from [w] ends in a world and a completion
    that satisfy [Q]. *)
Definition wp {A} (m : Async A) (w : World) (Q : World -> Completion A -> Prop)
  : Prop :=
  Q (fst (m w)) (snd (m w)).

Section WpRules.

Context {A B : Type}.
Implicit Types (w : World) (e : JsError).

Lemma wp_ret (a : A) w Q : Q w (Normal a) -> wp (mret a) w Q.
Proof. done. Qed.

Lemma wp_throw e w (Q : World -> Completion A -> Prop) :
  Q w (Throw e) -> wp (throw e) w Q.
Proof. done. Qed.

Lemma wp_bind (m : Async A) (k : A -> Async B) w Q :
  wp m w (fun w' r =>
            match r with
            | Normal a => wp (k a) w' Q
            | Return => Q w' Return
            | Throw e => Q w' (Throw e)
            end) ->
  wp (m ≫= k) w Q.
Proof.
  unfold wp, mbind, Async_bind. by destruct (m w) as [w' [a| |e]].
Qed.

Lemma wp_try_catch (m : Async A) (h : JsError -> Async A) w Q :
  wp m w (fun w' r =>
            match r with
            | Throw e => wp (h e) w' Q
            | _ => Q w' r
            end) ->
  wp (try_catch m h) w Q.
Proof.
  unfold wp, try_catch. by destruct (m w) as [w' [a| |e]].
Qed.

Lemma wp_return (m : Async unit) w (Q : World -> Completion A -> Prop) :
  wp m w (fun w' r =>
            match r with
            | Throw e => Q w' (Throw e)
            | _ => Q w' Return
            end) ->
  wp (return_ m) w Q.
Proof.
  unfold wp, return_. by destruct (m w) as [w' [a| |e]].
Qed.

End WpRules.

Lemma wp_emit ev w Q :
  Q (mkWorld (db w) (log w ++ [ev])) (Normal tt) -> wp (emit ev) w Q.
Proof. done. Qed.

Lemma wp_read_db w Q : Q w (Normal (db w)) -> wp read_db w Q.
Proof. done. Qed.

Lemma wp_write_db s w Q : Q (mkWorld s (log w)) (Normal tt) -> wp (write_db s) w Q.
Proof. done. Qed.

Lemma wp_await_db env c w Q :
  (rejects env c = true ->
   Q (mkWorld (db w) (log w ++ [Db c])) (Throw (Err "MongoError" "store call rejected"))) ->
  (rejects env c = false -> Q (mkWorld (db w) (log w ++ [Db c])) (Normal tt)) ->
  wp (await_db env c) w Q.
Proof.
  intros Ht Hf. unfold wp, await_db, mbind, Async_bind, emit. simpl.
  destruct (rejects env c); [by apply Ht | by apply Hf].
Qed.

(** A statement about the store and the log a handler leaves behind is
    a weakest precondition from the empty log. *)
Lemma wp_run (h : Async unit) (s : Store) (P : Store -> list Event -> Prop) :
  wp h (mkWorld s []) (fun w _ => P (db w) (log w)) ->
  P (store_after h s) (log_of h s).
Proof. done. Qed.

Lemma wp_run_completion (h : Async unit) (s : Store)
      (P : World -> Completion unit -> Prop) :
  wp h (mkWorld s []) P -> P (fst (run h s)) (snd (run h s)).
Proof. done. Qed.

Global Opaque wp.

Ltac wp_unfold :=
  unfold getAllPlaces, getPlaceById, getPlacesByUserId, createPlace, updatePlace,
    deletePlace, Place_find_populate, Place_findById,
    Place_findById_select_populate, User_findOne_populate, User_findById,
    mongoose_startSession, insert_place, remove_place, save_user,
    sess_commitTransaction, save_place, geocode, upload, deleteFile,
    deleteFile_callback, next, console_log, res_json, res_status_json,
    hydrate_user, hydrate_place, populate_creator, places_push, places_pull.

(** One step of symbolic execution. *)
Ltac wp_step :=
  lazymatch goal with
  | |- wp (mbind _ _) _ _ => apply wp_bind
  | |- wp (mret _) _ _ => apply wp_ret
  | |- wp (throw _) _ _ => apply wp_throw
  | |- wp (try_catch _ _) _ _ => apply wp_try_catch
  | |- wp (return_ _) _ _ => apply wp_return
  | |- wp (emit _) _ _ => apply wp_emit
  | |- wp read_db _ _ => apply wp_read_db
  | |- wp (write_db _) _ _ => apply wp_write_db
  | |- wp (await_db _ _) _ _ => apply wp_await_db; intros ?
  | |- wp (if bool_decide ?P then _ else _) _ _ =>
      destruct (decide P);
      [rewrite (bool_decide_eq_true_2 P) by assumption
      |rewrite (bool_decide_eq_false_2 P) by assumption]
  | |- wp (if ?b then _ else _) _ _ => destruct b eqn:?
  | |- wp (match ?f <$> ?x with _ => _ end) _ _ => destruct x eqn:?
  | |- wp (match ?x with _ => _ end) _ _ => destruct x eqn:?
  end;
  cbv beta iota zeta;
  cbn [db log app fmap option_fmap option_map pd_id pd_doc pd_fields pd_populated
       ud_id ud_doc ud_fields foldl apply_write places users].

Ltac wp_run_all := wp_unfold; cbv beta iota zeta; repeat wp_step.

(** ** Listing and updating: two missing cases *)

(** Whenever the query itself does not reject, [getAllPlaces] answers
    200: the guard [!places] never fires on an array. *)
Lemma getAllPlaces_answers_200 env req s :
  rejects env PlaceFind = false ->
  ∃ body, log_of (getAllPlaces env req) s = [Db PlaceFind; Respond 200 body].
Proof.
  intros Hok.
  apply (wp_run _ _ (fun _ l => ∃ body, l = [Db PlaceFind; Respond 200 body])).
  wp_run_all; try congruence; eauto.
  by unfold truthy_array in *.
Qed.

(** With a well-formed id that no place has, [updatePlace] answers
    nothing: reading [creator] off [null] throws outside any [try]. *)
Lemma updatePlace_missing_place_throws env req s :
  validation_errors req = [] ->
  rejects env PlaceFindById = false ->
  places s !! params_pid req = None ->
  fst (run (updatePlace env req) s) = mkWorld s [Db PlaceFindById] ∧
  snd (run (updatePlace env req) s) =
    Throw (TypeError "Cannot read property 'creator' of null").
Proof.
  intros Hv Hok Hnone.
  apply (wp_run_completion _ _ (fun w r => w = _ ∧ r = _)).
  wp_run_all; try congruence; done.
Qed.

(** C9: with no place in the collection and a query that succeeds,
    [getAllPlaces] answers 200 with an empty list, not the 404 the
    specification asks for. *)
Theorem getAllPlaces_no_places_answers_200 env req s :
  rejects env PlaceFind = false ->
  places s = ∅ ->
  log_of (getAllPlaces env req) s =
    [Db PlaceFind; Respond 200 (JObj [("places", JArr [])])].
Proof.
  intros Hok Hempty.
  apply (wp_run _ _ (fun _ l => l = _)).
  wp_run_all; try congruence.
  - by unfold truthy_array in *.
  - by rewrite Hempty, map_to_list_empty.
Qed.

Lemma getAllPlaces_no_places_answers_200_witness :
  rejects Sample.env PlaceFind = false ∧
  places Sample.empty_store = ∅ ∧
  log_of (getAllPlaces Sample.env (Sample.request "p1" "u1")) Sample.empty_store =
    [Db PlaceFind; Respond 200 (JObj [("places", JArr [])])].
Proof.
  split; [reflexivity|]. split; [reflexivity|].
  apply getAllPlaces_no_places_answers_200; reflexivity.
Defined.

(** C8: for a place id that resolves to no place, [updatePlace] hands no
    not-found error to the caller; it throws a TypeError that nothing
    catches, after the lookup and before any reply.  The store is left
    as it was. *)
Theorem updatePlace_unknown_place_no_reply env req s :
  validation_errors req = [] ->
  rejects env PlaceFindById = false ->
  places s !! params_pid req = None ->
  replies (updatePlace env req) s = [] ∧
  snd (run (updatePlace env req) s) =
    Throw (TypeError "Cannot read property 'creator' of null") ∧
  store_after (updatePlace env req) s = s.
Proof.
  intros Hv Hok Hnone.
  destruct (updatePlace_missing_place_throws env req s Hv Hok Hnone) as [Hw Hr].
  unfold replies, log_of, store_after. rewrite Hw, Hr. done.
Qed.

Lemma updatePlace_unknown_place_no_reply_witness :
  replies (updatePlace Sample.env (Sample.request "p9" "u1")) Sample.store = [] ∧
  snd (run (updatePlace Sample.env (Sample.request "p9" "u1")) Sample.store) =
    Throw (TypeError "Cannot read property 'creator' of null") ∧
  store_after (updatePlace Sample.env (Sample.request "p9" "u1")) Sample.store
    = Sample.store.
Proof.
  apply updatePlace_unknown_place_no_reply; reflexivity.
Defined.

(** ** [createPlace]: order of the calls and failures *)

(** Membership in an explicit log, decided element by element. *)
Ltac in_log H :=
  repeat (apply elem_of_cons in H as [H|H]; [try discriminate H|]);
  try (by apply elem_of_nil in H).

Ltac not_in_log :=
  let H := fresh in intros H; in_log H.

(** C10: when geocoding and upload succeed but no user has the caller's
    id, the lookup comes after the upload: the calls are geocode, upload,
    user lookup, in this order; the one reply is the creator-not-found
    error; the store is unchanged; and nothing deletes the uploaded
    image. *)
Theorem createPlace_missing_creator_after_upload env req s c b r :
  validation_errors req = [] ->
  getCoordinatesForAddress env (body_address req) = inr c ->
  file_buffer req = Some b ->
  imagekit_upload env b (toLowerCase (body_title req)) = inr r ->
  users s !! userData_userId req = None ->
  log_of (createPlace env req) s =
    [Geocode (body_address req); Upload (toLowerCase (body_title req));
     Db UserFindById; creator_not_found] ∧
  store_after (createPlace env req) s = s.
Proof.
  intros Hv Hg Hf Hu Hnone.
  apply (wp_run _ _ (fun s' l => l = _ ∧ s' = s)).
  wp_unfold. cbv beta iota zeta. rewrite Hv, Hg, Hf, Hu.
  repeat wp_step; try congruence; done.
Qed.

Lemma createPlace_missing_creator_after_upload_witness :
  log_of (createPlace Sample.env (Sample.request "p1" "u7")) Sample.store =
    [Geocode "12 Main St"; Upload "cafe"; Db UserFindById; creator_not_found] ∧
  store_after (createPlace Sample.env (Sample.request "p1" "u7")) Sample.store
    = Sample.store.
Proof.
  apply (createPlace_missing_creator_after_upload Sample.env
           (Sample.request "p1" "u7") Sample.store
           (mkCoordinates "37.422" "-122.084" "12 Main St") "jpeg-bytes"
           (mkUploadResult "https://ik.imagekit.io/places/cafe" "file-cafe"));
    reflexivity.
Defined.

(** C5: the calls of [createPlace] always form an initial segment of
    geocode, upload, user lookup, open session, save place, save user,
    commit.  When geocoding fails there is no upload and no store call
    at all; when the upload fails there is no store call; in both cases
    the store is unchanged. *)
Theorem createPlace_upstream_failure_aborts env req s :
  calls (createPlace env req) s `prefix_of` createPlace_calls req ∧
  (∀ e, getCoordinatesForAddress env (body_address req) = inl e →
     (∀ n, Upload n ∉ log_of (createPlace env req) s) ∧
     (∀ c, Db c ∉ log_of (createPlace env req) s) ∧
     store_after (createPlace env req) s = s) ∧
  (upload_fails env req →
     (∀ c, Db c ∉ log_of (createPlace env req) s) ∧
     store_after (createPlace env req) s = s).
Proof.
  unfold calls, upload_fails.
  apply (wp_run _ _ (fun s' l =>
    filter (fun ev => is_call ev = true) l `prefix_of` createPlace_calls req ∧
    (∀ e, getCoordinatesForAddress env (body_address req) = inl e →
       (∀ n, Upload n ∉ l) ∧ (∀ c, Db c ∉ l) ∧ s' = s) ∧
    (match file_buffer req with
     | None => True
     | Some b => ∃ e, imagekit_upload env b (toLowerCase (body_title req)) = inl e
     end → (∀ c, Db c ∉ l) ∧ s' = s))).
  wp_run_all.
  all: split; [by eexists|].
  all: split; [intros ? ?; try congruence; repeat split; try done; intros ?; not_in_log|].
  all: try (intros [? ?]; congruence).
  all: intros _; split; [intros ?; not_in_log | done].
Qed.

Lemma createPlace_upstream_failure_aborts_witness :
  let rq := Sample.request "p1" "u1" in
  ((∀ n, Upload n ∉ log_of (createPlace Sample.env_geocoder_down rq) Sample.store) ∧
   (∀ c, Db c ∉ log_of (createPlace Sample.env_geocoder_down rq) Sample.store) ∧
   store_after (createPlace Sample.env_geocoder_down rq) Sample.store = Sample.store) ∧
  ((∀ c, Db c ∉ log_of (createPlace Sample.env_upload_refused rq) Sample.store) ∧
   store_after (createPlace Sample.env_upload_refused rq) Sample.store = Sample.store).
Proof.
  intros rq. split.
  - destruct (createPlace_upstream_failure_aborts
                Sample.env_geocoder_down rq Sample.store) as (_ & Hg & _).
    exact (Hg _ eq_refl).
  - destruct (createPlace_upstream_failure_aborts
                Sample.env_upload_refused rq Sample.store) as (_ & _ & Hu).
    apply Hu. unfold upload_fails. simpl. eexists. reflexivity.
Defined.

(** C2: once the write phase is reached (valid input, geocoding and
    upload done, creator found), a failure at any of its points (opening
    the session, inserting the place, including an [_id] already taken,
    saving the user, committing) leaves the committed store exactly as it
    was, and the caller gets one reply, the generic creation failure. *)
Theorem createPlace_write_failure_leaves_no_trace env req s c b r u :
  validation_errors req = [] ->
  getCoordinatesForAddress env (body_address req) = inr c ->
  file_buffer req = Some b ->
  imagekit_upload env b (toLowerCase (body_title req)) = inr r ->
  rejects env UserFindById = false ->
  users s !! userData_userId req = Some u ->
  rejects env StartSession = true ∨
  rejects env PlaceSave = true ∨
  is_Some (places s !! new_ObjectId env) ∨
  rejects env UserSave = true ∨
  rejects env CommitTransaction = true ->
  store_after (createPlace env req) s = s ∧
  replies (createPlace env req) s = [creation_failed].
Proof.
  intros Hv Hg Hf Hu Hfind Huser Hfail.
  unfold replies.
  apply (wp_run _ _ (fun s' l =>
    s' = s ∧ filter (fun ev => is_reply ev = true) l = [creation_failed])).
  wp_unfold. cbv beta iota zeta. rewrite Hv, Hg, Hf, Hu.
  repeat wp_step; try congruence; try done.
  destruct Hfail as [?|[?|[[? ?]|[?|?]]]]; congruence.
Qed.

Lemma createPlace_write_failure_leaves_no_trace_witness :
  store_after (createPlace Sample.env_user_save_rejected (Sample.request "p1" "u1"))
    Sample.store = Sample.store ∧
  replies (createPlace Sample.env_user_save_rejected (Sample.request "p1" "u1"))
    Sample.store = [creation_failed].
Proof.
  apply (createPlace_write_failure_leaves_no_trace Sample.env_user_save_rejected
           (Sample.request "p1" "u1") Sample.store
           (mkCoordinates "37.422" "-122.084" "12 Main St") "jpeg-bytes"
           (mkUploadResult "https://ik.imagekit.io/places/cafe" "file-cafe")
           Sample.ann); try reflexivity.
  right. right. right. left. reflexivity.
Defined.

(** ** The three writes and referential integrity *)

Lemma occurrences_app id l1 l2 :
  occurrences id (l1 ++ l2) = (occurrences id l1 + occurrences id l2)%nat.
Proof. unfold occurrences. by rewrite filter_app, length_app. Qed.

Lemma occurrences_absent id l : id ∉ l -> occurrences id l = 0%nat.
Proof.
  unfold occurrences. induction l as [|x l IH]; [done|].
  intros Hnotin. apply not_elem_of_cons in Hnotin as [Hne Hl].
  rewrite filter_cons_False by congruence. by apply IH.
Qed.

Lemma elem_of_pull (id x : string) (l : list string) :
  x ∈ filter (fun y => y ≠ id) l ↔ x ∈ l ∧ x ≠ id.
Proof. rewrite list_elem_of_filter. tauto. Qed.

Lemma integrity_empty : integrity (mkStore ∅ ∅).
Proof. split; intros *; simpl; by rewrite lookup_empty. Qed.

(** Inserting a place under an unused id and appending the id to its
    creator's list. *)
Lemma integrity_create s id p u :
  integrity s ->
  places s !! id = None ->
  users s !! p_creator p = Some u ->
  integrity (mkStore (<[id := p]> (places s))
                     (alter (set_places (u_places u ++ [id])) (p_creator p) (users s))).
Proof.
  intros [Hp Hu] Hfresh Hcreator. split; simpl.
  - intros pid q Hq.
    destruct (decide (id = pid)) as [->|Hne].
    + rewrite lookup_insert_eq in Hq. injection Hq as <-.
      exists (set_places (u_places u ++ [pid]) u). split.
      * by rewrite lookup_alter_eq, Hcreator.
      * simpl. apply elem_of_app. right. by apply list_elem_of_singleton.
    + rewrite lookup_insert_ne in Hq by done.
      destruct (Hp pid q Hq) as (v & Hv & Hin).
      destruct (decide (p_creator p = p_creator q)) as [Heq|Hneq].
      * rewrite <- Heq in *. rewrite Hcreator in Hv. injection Hv as <-.
        exists (set_places (u_places u ++ [id]) u). split.
        -- by rewrite lookup_alter_eq, Hcreator.
        -- simpl. apply elem_of_app. by left.
      * exists v. split; [|done]. by rewrite lookup_alter_ne.
  - intros uid v pid Hv Hin.
    destruct (decide (p_creator p = uid)) as [<-|Hne].
    + rewrite lookup_alter_eq, Hcreator in Hv. injection Hv as <-.
      simpl in Hin. apply elem_of_app in Hin as [Hin|Hin].
      * destruct (Hu _ _ _ Hcreator Hin) as (q & Hq & Hc).
        exists q. split; [|done].
        rewrite lookup_insert_ne; [done|]. intros ->. congruence.
      * apply list_elem_of_singleton in Hin as ->.
        exists p. split; [|done]. by rewrite lookup_insert_eq.
    + rewrite lookup_alter_ne in Hv by done.
      destruct (Hu _ _ _ Hv Hin) as (q & Hq & Hc).
      exists q. split; [|done].
      rewrite lookup_insert_ne; [done|]. intros ->. congruence.
Qed.

(** Rewriting the title and description of a place. *)
Lemma integrity_update s id t d :
  integrity s ->
  integrity (mkStore (alter (set_title_description t d) id (places s)) (users s)).
Proof.
  intros [Hp Hu]. split; simpl.
  - intros pid q Hq.
    destruct (decide (id = pid)) as [->|Hne].
    + rewrite lookup_alter_eq in Hq.
      destruct (places s !! pid) as [q0|] eqn:Hq0; [|done].
      injection Hq as <-. simpl. by apply Hp.
    + rewrite lookup_alter_ne in Hq by done. by apply Hp.
  - intros uid v pid Hv Hin.
    destruct (Hu _ _ _ Hv Hin) as (q & Hq & Hc).
    destruct (decide (id = pid)) as [->|Hne].
    + exists (set_title_description t d q). split; [|done].
      by rewrite lookup_alter_eq, Hq.
    + exists q. split; [|done]. by rewrite lookup_alter_ne.
Qed.

(** Removing a place and pulling its id from its creator's list. *)
Lemma integrity_delete s id p u :
  integrity s ->
  places s !! id = Some p ->
  users s !! p_creator p = Some u ->
  integrity (mkStore (delete id (places s))
                     (alter (set_places (filter (fun x => x ≠ id) (u_places u)))
                            (p_creator p) (users s))).
Proof.
  intros [Hp Hu] Hplace Hcreator. split; simpl.
  - intros pid q Hq.
    destruct (decide (id = pid)) as [->|Hne].
    + by rewrite lookup_delete_eq in Hq.
    + rewrite lookup_delete_ne in Hq by done.
      destruct (Hp pid q Hq) as (v & Hv & Hin).
      destruct (decide (p_creator p = p_creator q)) as [Heq|Hneq].
      * rewrite <- Heq in *. rewrite Hcreator in Hv. injection Hv as <-.
        eexists. split; [by rewrite lookup_alter_eq, Hcreator|].
        simpl. apply elem_of_pull. split; [done|congruence].
      * exists v. split; [|done]. by rewrite lookup_alter_ne.
  - intros uid v pid Hv Hin.
    destruct (decide (p_creator p = uid)) as [<-|Hne].
    + rewrite lookup_alter_eq, Hcreator in Hv. injection Hv as <-.
      simpl in Hin. apply elem_of_pull in Hin as [Hin Hpid].
      destruct (Hu _ _ _ Hcreator Hin) as (q & Hq & Hc).
      exists q. split; [|done]. by rewrite lookup_delete_ne.
    + rewrite lookup_alter_ne in Hv by done.
      destruct (Hu _ _ _ Hv Hin) as (q & Hq & Hc).
      exists q. split; [|done].
      rewrite lookup_delete_ne; [done|]. intros ->. congruence.
Qed.

(** C1: each of [createPlace], [updatePlace] and [deletePlace] takes a
    store with bidirectional referential integrity to a store with
    bidirectional referential integrity, whatever the request, whatever
    the collaborators do, and whether the call succeeds or not. *)
Theorem workflows_preserve_integrity env req s :
  integrity s ->
  integrity (store_after (createPlace env req) s) ∧
  integrity (store_after (updatePlace env req) s) ∧
  integrity (store_after (deletePlace env req) s).
Proof.
  intros Hs. split; [|split].
  - apply (wp_run _ _ (fun s' _ => integrity s')).
    wp_run_all; try done.
    by apply (integrity_create s _ (mkPlace _ _ _ _ _ _ _ _)).
  - apply (wp_run _ _ (fun s' _ => integrity s')).
    wp_run_all; try done.
    all: by apply integrity_update.
  - apply (wp_run _ _ (fun s' _ => integrity s')).
    wp_run_all; try done.
    all: by eapply integrity_delete.
Qed.

Lemma sample_store_integrity : integrity Sample.store.
Proof.
  split; simpl.
  - intros pid p Hp. apply lookup_singleton_Some in Hp as [<- <-].
    exists Sample.ann. split; [reflexivity|]. by apply list_elem_of_singleton.
  - intros uid u pid Hu Hin.
    apply lookup_insert_Some in Hu as [[<- <-]|[_ Hu]].
    + apply list_elem_of_singleton in Hin as ->.
      exists Sample.office. split; reflexivity.
    + apply lookup_singleton_Some in Hu as [<- <-]. by apply elem_of_nil in Hin.
Qed.

Lemma workflows_preserve_integrity_witness :
  let rq := Sample.request "p1" "u1" in
  integrity Sample.store ∧
  integrity (store_after (createPlace Sample.env rq) Sample.store) ∧
  integrity (store_after (updatePlace Sample.env rq) Sample.store) ∧
  integrity (store_after (deletePlace Sample.env rq) Sample.store).
Proof.
  intros rq. split; [exact sample_store_integrity|].
  exact (workflows_preserve_integrity Sample.env rq Sample.store
           sample_store_integrity).
Defined.

(** ** [createPlace], when it succeeds *)

(** A 201 means that every step went through. *)
Lemma createPlace_created_inv env req s body :
  Respond 201 body ∈ log_of (createPlace env req) s ->
  ∃ c r u, create_commits env req s c r u.
Proof.
  unfold create_commits.
  apply (wp_run _ _ (fun _ l => Respond 201 body ∈ l → ∃ c r u, _)).
  wp_run_all; intros Hin; in_log Hin.
  eexists _, _, _. repeat split; try eassumption; try done.
  - by apply dec_stable.
  - eexists. split; [reflexivity | eassumption].
Qed.

(** When every step goes through, the place is inserted, its id is
    appended to the caller's list, and the answer is the created place. *)
Lemma createPlace_commit env req s c r u :
  create_commits env req s c r u ->
  store_after (createPlace env req) s =
    mkStore (<[new_ObjectId env := created_place req c r]> (places s))
            (alter (set_places (u_places u ++ [new_ObjectId env]))
                   (userData_userId req) (users s)) ∧
  log_of (createPlace env req) s =
    createPlace_calls req ++ [Respond 201 (created_response env req c r)].
Proof.
  intros (Hv & Hg & (b & Hb & Hr) & Hu & Hfresh & ? & ? & ? & ? & ?).
  apply (wp_run _ _ (fun s' l => s' = _ ∧ l = _)).
  wp_unfold. cbv beta iota zeta. rewrite Hv, Hg, Hb, Hr.
  repeat wp_step; try congruence.
  simplify_eq. done.
Qed.

(** Whatever happens, [createPlace] leaves the store as it found it or
    with both of its writes. *)
Lemma createPlace_all_or_nothing env req s :
  store_after (createPlace env req) s = s ∨
  ∃ c r u,
    create_commits env req s c r u ∧
    store_after (createPlace env req) s =
      mkStore (<[new_ObjectId env := created_place req c r]> (places s))
              (alter (set_places (u_places u ++ [new_ObjectId env]))
                     (userData_userId req) (users s)).
Proof.
  unfold create_commits.
  apply (wp_run _ _ (fun s' _ => s' = s ∨ ∃ c r u, _ ∧ s' = _)).
  wp_run_all; try (by left).
  right. eexists _, _, _. split; [|reflexivity].
  repeat split; try eassumption; try done.
  - by apply dec_stable.
  - eexists. split; [reflexivity | eassumption].
Qed.

(** C3: after a [createPlace] that answered 201, the place stored under
    the new id has the caller as its creator, as has the place in the
    response; the caller's [places] is the former list with one new
    entry, the new id, at its end; and in a store with referential
    integrity the new id occurs in it exactly once. *)
Theorem createPlace_success_links_place_and_caller env req s body :
  Respond 201 body ∈ log_of (createPlace env req) s ->
  let s' := store_after (createPlace env req) s in
  (∃ p, places s' !! new_ObjectId env = Some p ∧
        p_creator p = userData_userId req) ∧
  get "creator" (get "place" body) = JStr (userData_userId req) ∧
  (∃ u u', users s !! userData_userId req = Some u ∧
           users s' !! userData_userId req = Some u' ∧
           u_places u' = u_places u ++ [new_ObjectId env] ∧
           (integrity s → occurrences (new_ObjectId env) (u_places u') = 1%nat)).
Proof.
  intros Hok s'. subst s'.
  destruct (createPlace_created_inv _ _ _ _ Hok) as (c & r & u & Hc).
  destruct (createPlace_commit _ _ _ _ _ _ Hc) as [Hs Hl].
  rewrite Hl in Hok. unfold createPlace_calls in Hok. simpl in Hok.
  in_log Hok. injection Hok as ->.
  destruct Hc as (_ & _ & _ & Hu & Hfresh & _).
  rewrite Hs. simpl. split; [|split].
  - eexists. split; [apply lookup_insert_eq | done].
  - reflexivity.
  - exists u, (set_places (u_places u ++ [new_ObjectId env]) u).
    split; [done|]. split; [by rewrite lookup_alter_eq, Hu|].
    split; [done|]. intros [_ Hrefs]. simpl.
    rewrite occurrences_app, occurrences_absent.
    + unfold occurrences. by rewrite filter_cons_True.
    + intros Hin. destruct (Hrefs _ _ _ Hu Hin) as (q & Hq & _). congruence.
Qed.

Lemma createPlace_success_links_place_and_caller_witness :
  let h := createPlace Sample.env (Sample.request "p1" "u1") in
  (∃ p, places (store_after h Sample.store) !! "p2" = Some p ∧ p_creator p = "u1") ∧
  (∃ u u', users Sample.store !! "u1" = Some u ∧
           users (store_after h Sample.store) !! "u1" = Some u' ∧
           u_places u' = u_places u ++ ["p2"] ∧
           occurrences "p2" (u_places u') = 1%nat).
Proof.
  intros h.
  pose proof (createPlace_success_links_place_and_caller Sample.env
                (Sample.request "p1" "u1") Sample.store
                (created_response Sample.env (Sample.request "p1" "u1")
                   (mkCoordinates "37.422" "-122.084" "12 Main St")
                   (mkUploadResult "https://ik.imagekit.io/places/cafe" "file-cafe")))
    as H.
  destruct H as (Hp & _ & u & u' & Hu & Hu' & Hplaces & Honce).
  - apply list_elem_of_In. vm_compute. tauto.
  - split; [exact Hp|]. exists u, u'.
    repeat split; try assumption. exact (Honce sample_store_integrity).
Defined.

(** ** [deletePlace] *)

(** When [deletePlace] answers "Deleted place.", it has committed. *)
Lemma deletePlace_deleted_inv env req s :
  deleted ∈ log_of (deletePlace env req) s ->
  ∃ p u, delete_commits env req s p u.
Proof.
  unfold delete_commits.
  apply (wp_run _ _ (fun _ l => deleted ∈ l → ∃ p u, _)).
  wp_run_all; intros Hin; in_log Hin.
  all: eexists _, _; repeat split; try eassumption; try done.
  all: by apply dec_stable.
Qed.

(** When it commits, the place and the reference go together, and the
    one reply is the confirmation. *)
Lemma deletePlace_commit env req s p u :
  delete_commits env req s p u ->
  store_after (deletePlace env req) s =
    mkStore (delete (params_pid req) (places s))
            (alter (set_places (filter (fun x => x ≠ params_pid req) (u_places u)))
                   (p_creator p) (users s)) ∧
  replies (deletePlace env req) s = [deleted].
Proof.
  intros (Hp & Hu & Hc & ? & ? & ? & ? & ?).
  unfold replies.
  apply (wp_run _ _ (fun s' l =>
    s' = _ ∧ filter (fun ev => is_reply ev = true) l = [deleted])).
  wp_unfold. cbv beta iota zeta.
  repeat wp_step; try congruence.
  all: simplify_eq; done.
Qed.

(** C4: after a [deletePlace] that answered "Deleted place.", the place
    is gone from the store and the former owner's [places] no longer
    holds its id; and whatever becomes of the deletion of the image,
    the same call still answers "Deleted place." (its one reply) and
    leaves the same store. *)
Theorem deletePlace_success_removes_place_and_reference env req s :
  deleted ∈ log_of (deletePlace env req) s ->
  let s' := store_after (deletePlace env req) s in
  (∃ p u u', places s !! params_pid req = Some p ∧
             p_creator p = userData_userId req ∧
             users s !! userData_userId req = Some u ∧
             places s' !! params_pid req = None ∧
             users s' !! userData_userId req = Some u' ∧
             params_pid req ∉ u_places u') ∧
  (∀ f, replies (deletePlace (with_deleteFile f env) req) s = [deleted] ∧
        store_after (deletePlace (with_deleteFile f env) req) s = s').
Proof.
  intros Hok s'. subst s'.
  destruct (deletePlace_deleted_inv _ _ _ Hok) as (p & u & Hc).
  destruct (deletePlace_commit _ _ _ _ _ Hc) as [Hs _].
  split.
  - destruct Hc as (Hp & Hu & Hcaller & _).
    exists p, u, (set_places (filter (fun x => x ≠ params_pid req) (u_places u)) u).
    rewrite Hs, <- Hcaller. simpl.
    repeat split; try done.
    + apply lookup_delete_eq.
    + by rewrite lookup_alter_eq, Hu.
    + intros Hin. by apply elem_of_pull in Hin as [_ ?].
  - intros f.
    destruct (deletePlace_commit (with_deleteFile f env) req s p u Hc) as [Hs' Hr].
    by rewrite Hs, Hs'.
Qed.

Lemma deletePlace_success_removes_place_and_reference_witness :
  let h := deletePlace Sample.env (Sample.request "p1" "u1") in
  deleted ∈ log_of h Sample.store ∧
  (∃ p u u', places Sample.store !! "p1" = Some p ∧
             p_creator p = "u1" ∧
             users Sample.store !! "u1" = Some u ∧
             places (store_after h Sample.store) !! "p1" = None ∧
             users (store_after h Sample.store) !! "u1" = Some u' ∧
             "p1" ∉ u_places u').
Proof.
  intros h.
  assert (Hin : deleted ∈ log_of h Sample.store).
  { apply list_elem_of_In. vm_compute. tauto. }
  split; [exact Hin|].
  exact (proj1 (deletePlace_success_removes_place_and_reference Sample.env
                  (Sample.request "p1" "u1") Sample.store Hin)).
Defined.

(** ** Authorization *)

(** C6: when the caller is not the creator of the place, neither
    [updatePlace] nor [deletePlace] changes the store; [updatePlace],
    given valid input and a lookup that does not reject, replies once,
    with the 401 error; so does [deletePlace], given a lookup that does
    not reject and an owner document that exists. *)
Theorem non_owner_is_rejected_without_mutation env req s p :
  places s !! params_pid req = Some p ->
  p_creator p ≠ userData_userId req ->
  (store_after (updatePlace env req) s = s ∧
   (validation_errors req = [] → rejects env PlaceFindById = false →
    replies (updatePlace env req) s = [not_allowed_to_edit])) ∧
  (store_after (deletePlace env req) s = s ∧
   (rejects env PlaceFindById = false → is_Some (users s !! p_creator p) →
    replies (deletePlace env req) s = [not_allowed_to_delete])).
Proof.
  intros Hp Hne. unfold replies. split.
  - apply (wp_run _ _ (fun s' l =>
      s' = s ∧ (validation_errors req = [] → rejects env PlaceFindById = false →
                filter (fun ev => is_reply ev = true) l = [not_allowed_to_edit]))).
    wp_unfold. cbv beta iota zeta.
    repeat wp_step; simplify_eq; try done.
    all: split; [done|]; intros; congruence.
  - apply (wp_run _ _ (fun s' l =>
      s' = s ∧ (rejects env PlaceFindById = false → is_Some (users s !! p_creator p) →
                filter (fun ev => is_reply ev = true) l = [not_allowed_to_delete]))).
    wp_unfold. cbv beta iota zeta.
    repeat wp_step; simplify_eq; try done.
    all: split; [done|]; intros ? Hsome; try congruence.
    destruct Hsome. congruence.
Qed.

Lemma non_owner_is_rejected_without_mutation_witness :
  let rq := Sample.request "p1" "u2" in
  (store_after (updatePlace Sample.env rq) Sample.store = Sample.store ∧
   replies (updatePlace Sample.env rq) Sample.store = [not_allowed_to_edit]) ∧
  (store_after (deletePlace Sample.env rq) Sample.store = Sample.store ∧
   replies (deletePlace Sample.env rq) Sample.store = [not_allowed_to_delete]).
Proof.
  intros rq.
  destruct (non_owner_is_rejected_without_mutation Sample.env rq Sample.store
              Sample.office) as [[Hu1 Hu2] [Hd1 Hd2]].
  - reflexivity.
  - simpl. discriminate.
  - split; split.
    + exact Hu1.
    + apply Hu2; reflexivity.
    + exact Hd1.
    + apply Hd2; [reflexivity|]. exists Sample.ann. reflexivity.
Defined.

(** Bob, who does not own [p1], sends an update with an empty title:
    the validators answer first, with 422, and no 401 is sent. *)
Lemma non_owner_invalid_update_answers_422 :
  let rq := Sample.invalid_request "p1" "u2" in
  places Sample.store !! params_pid rq = Some Sample.office ∧
  p_creator Sample.office ≠ userData_userId rq ∧
  replies (updatePlace Sample.env rq) Sample.store =
    [Next (http_error "Invalid input of title" 422)] ∧
  replies (updatePlace Sample.env rq) Sample.store ≠ [not_allowed_to_edit].
Proof.
  intros rq. split; [reflexivity|]. split; [simpl; discriminate|].
  split; [reflexivity|]. vm_compute. discriminate.
Qed.

(** ** What the answers contain *)

Lemma stringify_obj fs :
  JSON_stringify (JObj fs) =
  JObj (flat_map (fun kv => match JSON_stringify (snd kv) with
                            | JUndefined => []
                            | y => [(fst kv, y)]
                            end) fs).
Proof. reflexivity. Qed.

Lemma has_key_obj k fs :
  has_key k (JObj fs) =
  existsb (fun kv => String.eqb k (fst kv) || has_key k (snd kv)) fs.
Proof. reflexivity. Qed.

Lemma hides_str k s : hides k (JStr s).
Proof. reflexivity. Qed.

Lemma hides_arr k xs : Forall (hides k) xs -> hides k (JArr xs).
Proof.
  unfold hides. intros H. simpl. induction H as [|x xs Hx _ IH]; [done|].
  simpl. rewrite IH, orb_false_r.
  destruct (JSON_stringify x); done.
Qed.

Lemma hides_obj k fs :
  Forall (fun kv => String.eqb k (fst kv) = false ∧ hides k (snd kv)) fs ->
  hides k (JObj fs).
Proof.
  unfold hides. intros H. rewrite stringify_obj, has_key_obj.
  induction H as [|[k' v] fs [Hk Hv] _ IH]; [done|].
  cbn [flat_map fst snd] in *. rewrite existsb_app, IH, orb_false_r.
  destruct (JSON_stringify v); cbn [existsb fst snd]; [done|..].
  all: by rewrite Hk, Hv.
Qed.

Ltac hides_tac :=
  repeat first
    [ assumption
    | apply hides_str
    | reflexivity
    | apply hides_obj
    | apply Forall_nil_2
    | apply Forall_cons_2; [split; cbn [fst snd] |] ].

Lemma hides_ids k (l : list string) : hides k (JArr (map JStr l)).
Proof. apply hides_arr, Forall_map, Forall_forall. intros. apply hides_str. Qed.

(** A user read with the default projection shows neither [password]
    nor [image.fileId], whatever its [places] property holds. *)
Lemma hides_user k id u ps :
  secret k -> hides k ps ->
  hides k (user_properties (mkUserDocument id u default_user_fields) ps).
Proof.
  intros Hk Hps. unfold user_properties.
  destruct u as [? ? ? [?|] [?|] ?]; cbn -[String.eqb];
    destruct Hk as [-> | ->]; hides_tac.
Qed.

(** So does a place read with the default projection, with its creator
    as an id, as [null], or populated. *)
Lemma hides_place k id p (pop : option (option UserDocument)) :
  secret k ->
  (∀ d, pop = Some (Some d) → ud_fields d = default_user_fields) ->
  hides k (place_toObject (mkPlaceDocument id p default_place_fields pop)).
Proof.
  intros Hk Hpop. unfold place_toObject, creator_value.
  cbn [pd_id pd_doc pd_fields pd_populated].
  assert (Hc : hides k
            match pop with
            | None => JStr (p_creator p)
            | Some None => JNull
            | Some (Some u) => user_toObject u
            end).
  { destruct pop as [[[uid u f]|]|]; [|reflexivity..].
    pose proof (Hpop _ eq_refl) as Hf. simpl in Hf. subst f.
    apply hides_user; [done|]. apply hides_ids. }
  cbn -[String.eqb] in *.
  destruct Hk as [-> | ->]; hides_tac.
Qed.

Lemma Respond_inj st b st' b' :
  Respond st b = Respond st' b' -> st = st' ∧ b = b'.
Proof. intros H. by injection H. Qed.

Ltac answers_start :=
  unfold answers_hide_secrets;
  apply (wp_run _ _ (fun _ l => ∀ status body k,
           Respond status body ∈ l → secret k → has_key k body = false));
  wp_run_all;
  intros status body k Hin Hk; in_log Hin;
  apply Respond_inj in Hin as [-> ->];
  match goal with |- has_key ?k (JSON_stringify ?j) = false => change (hides k j) end.

Ltac hides_body :=
  apply hides_obj, Forall_cons_2; [split; cbn [fst snd] | apply Forall_nil_2];
  [ match goal with Hk : secret _ |- _ => by destruct Hk as [-> | ->] end |].

Lemma getAllPlaces_hides env req s : answers_hide_secrets (getAllPlaces env req) s.
Proof.
  answers_start. hides_body.
  apply hides_arr. rewrite !Forall_map. apply Forall_forall. intros [id p] _.
  apply hides_place; [done|]. cbn [fst snd].
  intros d Hd. destruct (users s !! p_creator p); by simplify_eq/=.
Qed.

Lemma getPlaceById_hides env req s : answers_hide_secrets (getPlaceById env req) s.
Proof. answers_start. hides_body. by apply hides_place. Qed.

Lemma getPlacesByUserId_hides env req s :
  answers_hide_secrets (getPlacesByUserId env req) s.
Proof.
  answers_start. hides_body.
  unfold userWithPlaces_toObject, populate_places. cbn [uwp_user uwp_places].
  apply hides_user; [done|].
  apply hides_arr. rewrite Forall_map. apply Forall_forall. intros d Hd.
  apply list_elem_of_omap in Hd as (pid & _ & Hd).
  destruct (places s !! pid) as [q|]; simplify_eq/=.
  by apply hides_place.
Qed.

Lemma createPlace_hides env req s : answers_hide_secrets (createPlace env req) s.
Proof.
  answers_start. hides_body.
  by destruct Hk as [-> | ->].
Qed.

Lemma updatePlace_hides env req s : answers_hide_secrets (updatePlace env req) s.
Proof. answers_start; hides_body; by apply hides_place. Qed.

Lemma deletePlace_hides env req s : answers_hide_secrets (deletePlace env req) s.
Proof. answers_start; by destruct Hk as [-> | ->]. Qed.

(** C7: no body sent by any of the six handlers has, at any depth, a
    property named [fileId] or [password]; and the image object of the
    place in a 201 answer of [createPlace] consists of its [url] alone. *)
Theorem answers_never_carry_fileId_or_password env req s :
  (answers_hide_secrets (getAllPlaces env req) s ∧
   answers_hide_secrets (getPlaceById env req) s ∧
   answers_hide_secrets (getPlacesByUserId env req) s ∧
   answers_hide_secrets (createPlace env req) s ∧
   answers_hide_secrets (updatePlace env req) s ∧
   answers_hide_secrets (deletePlace env req) s) ∧
  (∀ body, Respond 201 body ∈ log_of (createPlace env req) s →
     ∃ url, get "image" (get "place" body) = JObj [("url", JStr url)]).
Proof.
  split.
  - repeat split.
    + apply getAllPlaces_hides.
    + apply getPlaceById_hides.
    + apply getPlacesByUserId_hides.
    + apply createPlace_hides.
    + apply updatePlace_hides.
    + apply deletePlace_hides.
  - intros body Hok.
    destruct (createPlace_created_inv _ _ _ _ Hok) as (c & r & u & Hc).
    destruct (createPlace_commit _ _ _ _ _ _ Hc) as [_ Hl].
    rewrite Hl in Hok. unfold createPlace_calls in Hok. simpl in Hok.
    in_log Hok. apply Respond_inj in Hok as [_ ->].
    by exists (r_url r).
Qed.

Lemma answers_never_carry_fileId_or_password_witness :
  let h := createPlace Sample.env (Sample.request "p1" "u1") in
  let body := created_response Sample.env (Sample.request "p1" "u1")
                (mkCoordinates "37.422" "-122.084" "12 Main St")
                (mkUploadResult "https://ik.imagekit.io/places/cafe" "file-cafe") in
  Respond 201 body ∈ log_of h Sample.store ∧
  has_key "fileId" body = false ∧
  has_key "password" body = false ∧
  ∃ url, get "image" (get "place" body) = JObj [("url", JStr url)].
Proof.
  intros h body.
  assert (Hin : Respond 201 body ∈ log_of h Sample.store).
  { apply list_elem_of_In. vm_compute. tauto. }
  destruct (answers_never_carry_fileId_or_password Sample.env
              (Sample.request "p1" "u1") Sample.store)
    as [(_ & _ & _ & Hcreate & _) Himage].
  split; [exact Hin|].
  split; [exact (Hcreate _ _ _ Hin (or_introl eq_refl))|].
  split; [exact (Hcreate _ _ _ Hin (or_intror eq_refl))|].
  exact (Himage _ Hin).
Defined.

(** ** Scenarios *)

(** Creating "Office" at an address the geocoder resolves: the answer
    carries the coordinates and the image url, and no [fileId]. *)
Example create_office_scenario :
  let rq := mkRequest [] "Office" "HQ" "1600 Amphitheatre Pkwy"
                      (Some "jpeg-bytes") "p0" "ann" "u1" in
  replies (createPlace Sample.env rq) Sample.store =
    [Respond 201
       (JObj [("place",
          JObj [("_id", JStr "p2"); ("title", JStr "Office");
                ("description", JStr "HQ");
                ("image", JObj [("url", JStr "https://ik.imagekit.io/places/office")]);
                ("address", JStr "1600 Amphitheatre Pkwy");
                ("location", JObj [("lat", JStr "37.422"); ("lng", JStr "-122.084")]);
                ("creator", JStr "u1"); ("id", JStr "p2")])])].
Proof. vm_compute. reflexivity. Qed.

(** Before serialization the answer of [createPlace] does have a
    [fileId] property, holding [undefined]; [JSON.stringify] drops it. *)
Example fileId_undefined_is_dropped :
  let image := JObj [("url", JStr "u"); ("fileId", JUndefined)] in
  has_key "fileId" image = true ∧ has_key "fileId" (JSON_stringify image) = false.
Proof. split; reflexivity. Qed.

(** Deleting the same place twice: a confirmation, then not found. *)
Example delete_twice_scenario :
  let rq := Sample.request "p1" "u1" in
  let once := store_after (deletePlace Sample.env rq) Sample.store in
  replies (deletePlace Sample.env rq) Sample.store = [deleted] ∧
  replies (deletePlace Sample.env rq) once =
    [Next (http_error "Could not find a place for the provided id." 404)].
Proof. split; vm_compute; reflexivity. Qed.

(** An unknown user name and a user without places get the same answer. *)
Example places_of_nobody_scenario :
  let nobody := mkRequest [] "t" "d" "a" None "p0" "nobody" "u0" in
  let bob := mkRequest [] "t" "d" "a" None "p0" "bob" "u0" in
  replies (getPlacesByUserId Sample.env nobody) Sample.store =
    [Next (http_error "Could not find a place with that user id." 404)] ∧
  replies (getPlacesByUserId Sample.env bob) Sample.store =
    replies (getPlacesByUserId Sample.env nobody) Sample.store.
Proof. split; vm_compute; reflexivity. Qed.

(** * Further properties of the handlers *)

(** ** The read handlers *)

(** X1: The three read handlers leave the store alone, and their one call is
    their query. *)
Theorem read_handlers_only_query env req s :
  (store_after (getAllPlaces env req) s = s ∧
   calls (getAllPlaces env req) s = [Db PlaceFind]) ∧
  (store_after (getPlaceById env req) s = s ∧
   calls (getPlaceById env req) s = [Db PlaceFindById]) ∧
  (store_after (getPlacesByUserId env req) s = s ∧
   calls (getPlacesByUserId env req) s = [Db UserFindOne]).
Proof.
  unfold calls. split; [|split].
  - apply (wp_run _ _ (fun s' l =>
      s' = s ∧ filter (fun ev => is_call ev = true) l = [Db PlaceFind])).
    wp_run_all; done.
  - apply (wp_run _ _ (fun s' l =>
      s' = s ∧ filter (fun ev => is_call ev = true) l = [Db PlaceFindById])).
    wp_run_all; done.
  - apply (wp_run _ _ (fun s' l =>
      s' = s ∧ filter (fun ev => is_call ev = true) l = [Db UserFindOne])).
    wp_run_all; done.
Qed.



(** X3: [getPlaceById] tells three cases apart: the query rejects (500), no
    place has the id (404), or the place is sent (200) with every path
    but [image.fileId]. *)
Theorem getPlaceById_answers env req s :
  (rejects env PlaceFindById = true →
   replies (getPlaceById env req) s = [place_lookup_failed]) ∧
  (rejects env PlaceFindById = false → places s !! params_pid req = None →
   replies (getPlaceById env req) s = [place_not_found]) ∧
  (∀ p, rejects env PlaceFindById = false → places s !! params_pid req = Some p →
   replies (getPlaceById env req) s =
     [Respond 200 (JObj [("place", place_json (params_pid req) p)])]).
Proof.
  unfold replies.
  apply (wp_run _ _ (fun _ l =>
    (rejects env PlaceFindById = true →
     filter (fun ev => is_reply ev = true) l = [place_lookup_failed]) ∧
    (rejects env PlaceFindById = false → places s !! params_pid req = None →
     filter (fun ev => is_reply ev = true) l = [place_not_found]) ∧
    (∀ p, rejects env PlaceFindById = false → places s !! params_pid req = Some p →
     filter (fun ev => is_reply ev = true) l =
       [Respond 200 (JObj [("place", place_json (params_pid req) p)])]))).
  wp_run_all.
  all: repeat split; intros; simplify_eq; try congruence; done.
Qed.

Lemma getPlaceById_answers_witness :
  replies (getPlaceById Sample.env_lookup_rejected (Sample.request "p1" "u1"))
    Sample.store = [place_lookup_failed] ∧
  replies (getPlaceById Sample.env (Sample.request "p9" "u1")) Sample.store
    = [place_not_found] ∧
  replies (getPlaceById Sample.env (Sample.request "p1" "u1")) Sample.store
    = [Respond 200 (JObj [("place", place_json "p1" Sample.office)])].
Proof.
  split; [|split].
  - apply (proj1 (getPlaceById_answers Sample.env_lookup_rejected
                    (Sample.request "p1" "u1") Sample.store)). reflexivity.
  - apply (proj1 (proj2 (getPlaceById_answers Sample.env
                    (Sample.request "p9" "u1") Sample.store))); reflexivity.
  - apply (proj2 (proj2 (getPlaceById_answers Sample.env
                    (Sample.request "p1" "u1") Sample.store))); reflexivity.
Defined.

(** The user [findOne] returns is a stored user with the name asked for. *)
Lemma findOne_by_name (s : Store) (username : string) (kv : string * User) :
  head (filter (fun kv => u_name (snd kv) = username) (map_to_list (users s)))
    = Some kv ->
  users s !! fst kv = Some (snd kv) ∧ u_name (snd kv) = username.
Proof.
  intros Hhead. apply head_Some_elem_of, list_elem_of_filter in Hhead as [Hname Hin].
  destruct kv as [uid u]. by apply elem_of_map_to_list in Hin.
Qed.

Lemma findOne_nobody (s : Store) (username : string) :
  head (filter (fun kv => u_name (snd kv) = username) (map_to_list (users s)))
    = None ->
  ∀ uid u, users s !! uid = Some u → u_name u ≠ username.
Proof.
  intros Hhead uid u Hu Hname.
  assert (Hin : (uid, u) ∈ filter (fun kv => u_name (snd kv) = username)
                              (map_to_list (users s))).
  { apply list_elem_of_filter. split; [done|]. by apply elem_of_map_to_list. }
  destruct (filter _ _); [by apply elem_of_nil in Hin | done].
Qed.

(** A populated list that is not empty comes from an id that resolves. *)
Lemma populate_places_nonempty (s : Store) (d : UserDocument) :
  length (uwp_places (populate_places s d)) ≠ 0%nat ->
  ∃ pid, pid ∈ u_places (ud_doc d) ∧ is_Some (places s !! pid).
Proof.
  unfold populate_places. cbn [uwp_places].
  destruct (omap _ _) as [|x xs] eqn:Hl; [done|]. intros _.
  assert (Hx : x ∈ x :: xs) by left. rewrite <- Hl in Hx.
  apply list_elem_of_omap in Hx as (pid & Hpid & Hx).
  exists pid. split; [done|]. destruct (places s !! pid); [by eexists | done].
Qed.

(** X4: [getPlacesByUserId], when its query does not reject: the answer is
    the one not-found error as soon as no user of that name lists a
    place that exists, be it that there is no such user, that the list
    is empty, or that its ids resolve to nothing; and a 200 means that
    some user of that name lists a place that exists. *)
Theorem getPlacesByUserId_not_found env req s :
  rejects env UserFindOne = false ->
  ((∀ uid u pid, users s !! uid = Some u → u_name u = params_username req →
                 pid ∈ u_places u → places s !! pid = None) →
   replies (getPlacesByUserId env req) s = [no_places_for_user]) ∧
  (∀ body, Respond 200 body ∈ log_of (getPlacesByUserId env req) s →
     ∃ uid u pid, users s !! uid = Some u ∧ u_name u = params_username req ∧
                  pid ∈ u_places u ∧ is_Some (places s !! pid)).
Proof.
  intros Hok. unfold replies.
  apply (wp_run _ _ (fun _ l =>
    ((∀ uid u pid, users s !! uid = Some u → u_name u = params_username req →
                   pid ∈ u_places u → places s !! pid = None) →
     filter (fun ev => is_reply ev = true) l = [no_places_for_user]) ∧
    (∀ body, Respond 200 body ∈ l →
       ∃ uid u pid, users s !! uid = Some u ∧ u_name u = params_username req ∧
                    pid ∈ u_places u ∧ is_Some (places s !! pid)))).
  wp_run_all; try congruence.
  all: split; [intros Hnone | intros body Hin; in_log Hin]; try done.
  - match goal with H : head _ = Some ?kv |- _ =>
      destruct (findOne_by_name _ _ _ H) as [Hu Hname] end.
    match goal with H : length _ ≠ 0%nat |- _ =>
      apply populate_places_nonempty in H as (pid & Hpid & [q Hq]) end.
    simpl in Hpid. rewrite (Hnone _ _ _ Hu Hname Hpid) in Hq. done.
  - match goal with H : head _ = Some ?kv |- _ =>
      destruct (findOne_by_name _ _ _ H) as [Hu Hname] end.
    match goal with H : length _ ≠ 0%nat |- _ =>
      apply populate_places_nonempty in H as (pid & Hpid & Hq) end.
    eexists _, _, pid. repeat split; try eassumption.
Qed.

Lemma getPlacesByUserId_not_found_witness :
  let bob := mkRequest [] "t" "d" "a" None "p0" "bob" "u0" in
  let ann := mkRequest [] "t" "d" "a" None "p0" "ann" "u0" in
  replies (getPlacesByUserId Sample.env bob) Sample.store = [no_places_for_user] ∧
  ∃ uid u pid, users Sample.store !! uid = Some u ∧ u_name u = "ann" ∧
               pid ∈ u_places u ∧ is_Some (places Sample.store !! pid).
Proof.
  intros bob ann. split.
  - apply (getPlacesByUserId_not_found Sample.env bob Sample.store eq_refl).
    intros uid u pid Hu Hname Hpid. simpl in Hu.
    apply lookup_insert_Some in Hu as [[<- <-]|[_ Hu]]; [discriminate Hname|].
    apply lookup_singleton_Some in Hu as [<- <-]. by apply elem_of_nil in Hpid.
  - apply (proj2 (getPlacesByUserId_not_found Sample.env ann Sample.store eq_refl)
             (JObj [("data",
                JObj [("_id", JStr "u1"); ("name", JStr "ann");
                      ("email", JStr "ann@example.org");
                      ("image", JObj [("url", JStr "https://ik.imagekit.io/places/ann.jpg")]);
                      ("places", JArr [place_json "p1" Sample.office]);
                      ("id", JStr "u1")])])).
    apply list_elem_of_In. vm_compute. tauto.
Defined.

(** ** Validation and the errors of [createPlace] *)

(** X5: A request that fails validation is answered 422, naming the failed
    parameters, before anything else happens: [createPlace] only logs,
    [updatePlace] does nothing more, neither calls the geocoder, the
    image store or the document store, and the store is unchanged. *)
Theorem validation_gate_comes_first env req s :
  validation_errors req ≠ [] ->
  (log_of (createPlace env req) s = [ConsoleLog; Next (invalid_input req)] ∧
   store_after (createPlace env req) s = s) ∧
  (log_of (updatePlace env req) s = [Next (invalid_input req)] ∧
   store_after (updatePlace env req) s = s).
Proof.
  intros Hinvalid. split.
  - apply (wp_run _ _ (fun s' l => l = _ ∧ s' = s)).
    wp_unfold. cbv beta iota zeta. do 2 wp_step; [|done].
    repeat wp_step. done.
  - apply (wp_run _ _ (fun s' l => l = _ ∧ s' = s)).
    wp_unfold. cbv beta iota zeta. do 2 wp_step; [|done].
    repeat wp_step. done.
Qed.

Lemma validation_gate_comes_first_witness :
  let rq := mkRequest ["title"; "address"] "x" "Good coffee" "y" None "p1" "ann" "u2" in
  log_of (createPlace Sample.env rq) Sample.store =
    [ConsoleLog; Next (http_error "Invalid input of title,address" 422)] ∧
  log_of (updatePlace Sample.env rq) Sample.store =
    [Next (http_error "Invalid input of title,address" 422)].
Proof.
  intros rq.
  destruct (validation_gate_comes_first Sample.env rq Sample.store)
    as [[Hc _] [Hu _]]; [discriminate|].
  split; [exact Hc | exact Hu].
Defined.

(** X6: With valid input, [createPlace] hands a geocoding error to the
    caller as it is, whereas an error of the image store is wrapped: its
    message is kept and its status becomes 500. *)
Theorem createPlace_upstream_errors env req s :
  validation_errors req = [] ->
  (∀ e, getCoordinatesForAddress env (body_address req) = inl e →
     replies (createPlace env req) s = [Next e]) ∧
  (∀ c b e, getCoordinatesForAddress env (body_address req) = inr c →
     file_buffer req = Some b →
     imagekit_upload env b (toLowerCase (body_title req)) = inl e →
     replies (createPlace env req) s = [Next (http_error (err_message e) 500)]).
Proof.
  intros Hvalid. unfold replies.
  apply (wp_run _ _ (fun _ l =>
    (∀ e, getCoordinatesForAddress env (body_address req) = inl e →
       filter (fun ev => is_reply ev = true) l = [Next e]) ∧
    (∀ c b e, getCoordinatesForAddress env (body_address req) = inr c →
       file_buffer req = Some b →
       imagekit_upload env b (toLowerCase (body_title req)) = inl e →
       filter (fun ev => is_reply ev = true) l =
         [Next (http_error (err_message e) 500)]))).
  wp_run_all; try done.
  all: split; intros; simplify_eq; try congruence; try done.
  match goal with
  | |- filter _ [_; _; Next (http_error (err_message ?j) 500)] =
       [Next (http_error (err_message ?e) 500)] =>
      replace j with e by congruence
  end.
  done.
Qed.

Lemma createPlace_upstream_errors_witness :
  let rq := Sample.request "p1" "u1" in
  replies (createPlace Sample.env_geocoder_down rq) Sample.store =
    [Next (http_error "Could not find location for the address." 422)] ∧
  replies (createPlace Sample.env_upload_refused rq) Sample.store =
    [Next (http_error "Your request contains invalid file." 500)].
Proof.
  intros rq. split.
  - apply (proj1 (createPlace_upstream_errors Sample.env_geocoder_down rq
                    Sample.store eq_refl)). reflexivity.
  - apply (proj2 (createPlace_upstream_errors Sample.env_upload_refused rq
                    Sample.store eq_refl)
             (mkCoordinates "37.422" "-122.084" "12 Main St") "jpeg-bytes"
             (Err "Error" "Your request contains invalid file.")); reflexivity.
Defined.

(** ** [updatePlace] *)

(** The write of [updatePlace] and its answer. *)
Lemma updatePlace_write env req s p :
  update_writes env req s p ->
  rejects env PlaceSave = false ->
  store_after (updatePlace env req) s =
    mkStore (alter (set_title_description (body_title req) (body_description req))
                   (params_pid req) (places s))
            (users s) ∧
  replies (updatePlace env req) s =
    [Respond 200
       (JObj [("place",
               place_json (params_pid req)
                 (set_title_description (body_title req) (body_description req) p))])].
Proof.
  intros (Hv & Hfind & Hp & Hc) Hsave. unfold replies.
  apply (wp_run _ _ (fun s' l =>
    s' = _ ∧ filter (fun ev => is_reply ev = true) l = _)).
  wp_unfold. cbv beta iota zeta. rewrite Hv.
  repeat wp_step; simplify_eq; try congruence; done.
Qed.

(** Without that write, [updatePlace] changes nothing. *)
Lemma updatePlace_all_or_nothing env req s :
  store_after (updatePlace env req) s = s ∨
  ∃ p, update_writes env req s p ∧ rejects env PlaceSave = false.
Proof.
  unfold update_writes.
  apply (wp_run _ _ (fun s' _ => s' = s ∨ ∃ p, _)).
  wp_run_all; try (by left).
  right. eexists. repeat split; try eassumption; try done.
  all: by apply dec_stable.
Qed.

(** X7: When the creator sends valid input and the save goes through, the
    place gets the new title and description, every other place and
    every user stay as they were, and the updated place is sent. *)
Theorem updatePlace_by_creator env req s p :
  update_writes env req s p ->
  rejects env PlaceSave = false ->
  let s' := store_after (updatePlace env req) s in
  places s' !! params_pid req =
    Some (set_title_description (body_title req) (body_description req) p) ∧
  (∀ pid, pid ≠ params_pid req → places s' !! pid = places s !! pid) ∧
  users s' = users s ∧
  replies (updatePlace env req) s =
    [Respond 200
       (JObj [("place",
               place_json (params_pid req)
                 (set_title_description (body_title req) (body_description req) p))])].
Proof.
  intros Hw Hsave s'. subst s'.
  destruct (updatePlace_write _ _ _ _ Hw Hsave) as [-> Hr].
  destruct Hw as (_ & _ & Hp & _). simpl.
  split; [by rewrite lookup_alter_eq, Hp|].
  split; [intros pid Hne; by rewrite lookup_alter_ne|].
  done.
Qed.

Lemma updatePlace_by_creator_witness :
  let rq := Sample.request "p1" "u1" in
  let s' := store_after (updatePlace Sample.env rq) Sample.store in
  places s' !! "p1" = Some (set_title_description "Cafe" "Good coffee" Sample.office) ∧
  users s' = users Sample.store.
Proof.
  intros rq s'.
  destruct (updatePlace_by_creator Sample.env rq Sample.store Sample.office)
    as (Hp & _ & Hu & _).
  - repeat split; reflexivity.
  - reflexivity.
  - split; [exact Hp | exact Hu].
Defined.

(** X8: When the save is rejected, the creator is answered 500 and the
    store keeps the old title and description. *)
Theorem updatePlace_save_rejected env req s p :
  update_writes env req s p ->
  rejects env PlaceSave = true ->
  store_after (updatePlace env req) s = s ∧
  replies (updatePlace env req) s = [update_failed].
Proof.
  intros (Hv & Hfind & Hp & Hc) Hsave. unfold replies.
  apply (wp_run _ _ (fun s' l =>
    s' = s ∧ filter (fun ev => is_reply ev = true) l = [update_failed])).
  wp_unfold. cbv beta iota zeta. rewrite Hv.
  repeat wp_step; simplify_eq; try congruence; done.
Qed.

Lemma updatePlace_save_rejected_witness :
  let rq := Sample.request "p1" "u1" in
  store_after (updatePlace Sample.env_place_save_rejected rq) Sample.store
    = Sample.store ∧
  replies (updatePlace Sample.env_place_save_rejected rq) Sample.store
    = [update_failed].
Proof.
  intros rq.
  apply (updatePlace_save_rejected Sample.env_place_save_rejected rq
           Sample.store Sample.office).
  - repeat split; reflexivity.
  - reflexivity.
Defined.

(** X9: Whatever the request and whatever happens, [updatePlace] leaves the
    users alone, neither adds nor removes a place, and changes nothing
    of a place but its title and description: creator, image, address
    and location stay. *)
Theorem updatePlace_changes_title_and_description_only env req s :
  let s' := store_after (updatePlace env req) s in
  users s' = users s ∧
  (∀ pid, places s' !! pid = None ↔ places s !! pid = None) ∧
  (∀ pid p p', places s !! pid = Some p → places s' !! pid = Some p' →
     p' = set_title_description (p_title p') (p_description p') p).
Proof.
  intros s'. subst s'.
  destruct (updatePlace_all_or_nothing env req s) as [-> | (q & Hw & Hsave)].
  - split; [done|]. split; [done|].
    intros pid p p' Hp Hp'. rewrite Hp in Hp'. injection Hp' as <-. by destruct p.
  - destruct (updatePlace_write _ _ _ _ Hw Hsave) as [-> _]. simpl.
    split; [done|]. split.
    + intros pid. rewrite lookup_alter.
      case_decide; [|done]. subst. by destruct (places s !! params_pid req).
    + intros pid p p' Hp Hp'. rewrite lookup_alter in Hp'.
      case_decide; subst; rewrite Hp in Hp'; injection Hp' as <-; by destruct p.
Qed.

(** X10: Sending the same update twice leaves the store as sending it once. *)
Theorem updatePlace_idempotent env req s :
  store_after (updatePlace env req) (store_after (updatePlace env req) s) =
  store_after (updatePlace env req) s.
Proof.
  destruct (updatePlace_all_or_nothing env req s) as [Hsame | (p & Hw & Hsave)].
  - by rewrite !Hsame.
  - destruct (updatePlace_write _ _ _ _ Hw Hsave) as [Hs _]. rewrite Hs.
    destruct Hw as (Hv & Hfind & Hp & Hc).
    destruct (updatePlace_write env req
                (mkStore (alter (set_title_description (body_title req)
                                   (body_description req))
                                (params_pid req) (places s)) (users s))
                (set_title_description (body_title req) (body_description req) p))
      as [-> _]; [|done|].
    + repeat split; try done. simpl. by rewrite lookup_alter_eq, Hp.
    + simpl. f_equal. apply map_eq. intros pid.
      destruct (decide (params_pid req = pid)) as [<-|Hne].
      * rewrite !lookup_alter_eq, Hp. done.
      * by rewrite !lookup_alter_ne.
Qed.

(** X11: After a successful update, [getPlaceById] sends what the update
    itself sent. *)
Theorem update_then_get env env2 req s p :
  update_writes env req s p ->
  rejects env PlaceSave = false ->
  rejects env2 PlaceFindById = false ->
  replies (getPlaceById env2 req) (store_after (updatePlace env req) s) =
  replies (updatePlace env req) s.
Proof.
  intros Hw Hsave Hfind.
  destruct (updatePlace_write _ _ _ _ Hw Hsave) as [-> ->].
  destruct Hw as (_ & _ & Hp & _). unfold replies.
  apply (wp_run _ _ (fun _ l => filter (fun ev => is_reply ev = true) l = _)).
  wp_run_all; try congruence.
  all: simpl in *; rewrite lookup_alter_eq, Hp in *; simplify_eq/=; done.
Qed.

Lemma update_then_get_witness :
  let rq := Sample.request "p1" "u1" in
  replies (getPlaceById Sample.env rq)
          (store_after (updatePlace Sample.env rq) Sample.store) =
  replies (updatePlace Sample.env rq) Sample.store.
Proof.
  intros rq.
  apply (update_then_get Sample.env Sample.env rq Sample.store Sample.office).
  - repeat split; reflexivity.
  - reflexivity.
  - reflexivity.
Defined.

(** ** [deletePlace], beyond its success *)

(** Without a commit, [deletePlace] changes nothing. *)
Lemma deletePlace_all_or_nothing env req s :
  store_after (deletePlace env req) s = s ∨ ∃ p u, delete_commits env req s p u.
Proof.
  unfold delete_commits.
  apply (wp_run _ _ (fun s' _ => s' = s ∨ ∃ p u, _)).
  wp_run_all; try (by left).
  all: right; eexists _, _; repeat split; try eassumption; try done.
  all: by apply dec_stable.
Qed.

(** The calls of a [deletePlace] that commits. *)
Lemma deletePlace_commit_calls env req s p u :
  delete_commits env req s p u ->
  calls (deletePlace env req) s =
    [Db PlaceFindById; Db StartSession; Db PlaceRemove; Db UserSave;
     Db CommitTransaction; DeleteFile (p_image_fileId p)].
Proof.
  intros (Hp & Hu & Hc & ? & ? & ? & ? & ?). unfold calls.
  apply (wp_run _ _ (fun _ l => filter (fun ev => is_call ev = true) l = _)).
  wp_unfold. cbv beta iota zeta.
  repeat wp_step; try congruence.
  all: simplify_eq; done.
Qed.

(** X12: [deletePlace] answers the same 404 when its query rejects and when
    no place has the id; it then makes no further call and leaves the
    store as it was. *)
Theorem deletePlace_not_found env req s :
  rejects env PlaceFindById = true ∨ places s !! params_pid req = None ->
  replies (deletePlace env req) s = [delete_not_found] ∧
  calls (deletePlace env req) s = [Db PlaceFindById] ∧
  store_after (deletePlace env req) s = s.
Proof.
  intros Hcase. unfold replies, calls.
  apply (wp_run _ _ (fun s' l =>
    filter (fun ev => is_reply ev = true) l = [delete_not_found] ∧
    filter (fun ev => is_call ev = true) l = [Db PlaceFindById] ∧ s' = s)).
  wp_run_all; try done.
  all: destruct Hcase; congruence.
Qed.

Lemma deletePlace_not_found_witness :
  replies (deletePlace Sample.env_lookup_rejected (Sample.request "p1" "u1"))
    Sample.store = [delete_not_found] ∧
  replies (deletePlace Sample.env (Sample.request "p9" "u1")) Sample.store
    = [delete_not_found].
Proof.
  split.
  - apply (deletePlace_not_found Sample.env_lookup_rejected
             (Sample.request "p1" "u1") Sample.store). left. reflexivity.
  - apply (deletePlace_not_found Sample.env (Sample.request "p9" "u1")
             Sample.store). right. reflexivity.
Defined.

(** X13: When the place names a creator that no user document matches,
    [deletePlace] answers nothing: reading [id] off the [null] creator
    throws outside any [try], before any write. *)
Theorem deletePlace_missing_owner_throws env req s p :
  rejects env PlaceFindById = false ->
  places s !! params_pid req = Some p ->
  users s !! p_creator p = None ->
  replies (deletePlace env req) s = [] ∧
  snd (run (deletePlace env req) s) =
    Throw (TypeError "Cannot read property 'id' of null") ∧
  store_after (deletePlace env req) s = s.
Proof.
  intros Hfind Hp Hu. unfold replies, store_after, log_of.
  apply (wp_run_completion _ _ (fun w r =>
    filter (fun ev => is_reply ev = true) (log w) = [] ∧ r = _ ∧ db w = s)).
  wp_unfold. cbv beta iota zeta.
  repeat wp_step; simplify_eq; try congruence; done.
Qed.

Lemma deletePlace_missing_owner_throws_witness :
  let rq := Sample.request "p1" "u1" in
  replies (deletePlace Sample.env rq) Sample.store_without_ann = [] ∧
  snd (run (deletePlace Sample.env rq) Sample.store_without_ann) =
    Throw (TypeError "Cannot read property 'id' of null") ∧
  store_after (deletePlace Sample.env rq) Sample.store_without_ann
    = Sample.store_without_ann.
Proof.
  intros rq.
  apply (deletePlace_missing_owner_throws Sample.env rq
           Sample.store_without_ann Sample.office); reflexivity.
Defined.

(** X14: Once the owner's delete has reached its write phase, a rejection at
    any of its points (opening the session, removing the place, saving
    the owner, committing) leaves the store as it was, is answered 500,
    and the image is not deleted. *)
Theorem deletePlace_write_failure_leaves_no_trace env req s p u :
  rejects env PlaceFindById = false ->
  places s !! params_pid req = Some p ->
  users s !! p_creator p = Some u ->
  p_creator p = userData_userId req ->
  rejects env StartSession = true ∨ rejects env PlaceRemove = true ∨
  rejects env UserSave = true ∨ rejects env CommitTransaction = true ->
  store_after (deletePlace env req) s = s ∧
  replies (deletePlace env req) s = [delete_failed] ∧
  (∀ f, DeleteFile f ∉ log_of (deletePlace env req) s).
Proof.
  intros Hfind Hp Hu Hc Hfail. unfold replies.
  apply (wp_run _ _ (fun s' l =>
    s' = s ∧ filter (fun ev => is_reply ev = true) l = [delete_failed] ∧
    (∀ f, DeleteFile f ∉ l))).
  wp_unfold. cbv beta iota zeta.
  repeat wp_step; simplify_eq; try congruence.
  all: try (repeat split; [done.. | intros f; not_in_log]).
  all: destruct Hfail as [?|[?|[?|?]]]; congruence.
Qed.

Lemma deletePlace_write_failure_leaves_no_trace_witness :
  let rq := Sample.request "p1" "u1" in
  store_after (deletePlace Sample.env_user_save_rejected rq) Sample.store
    = Sample.store ∧
  replies (deletePlace Sample.env_user_save_rejected rq) Sample.store
    = [delete_failed].
Proof.
  intros rq.
  destruct (deletePlace_write_failure_leaves_no_trace
              Sample.env_user_save_rejected rq Sample.store Sample.office
              Sample.ann) as (Hs & Hr & _); try reflexivity.
  - right. right. left. reflexivity.
  - split; [exact Hs | exact Hr].
Defined.



(** X16: Deleting a place a second time is answered 404, whatever the
    store and the image store do then, and changes nothing more. *)
Theorem deletePlace_twice env env2 req s :
  deleted ∈ log_of (deletePlace env req) s ->
  let s' := store_after (deletePlace env req) s in
  replies (deletePlace env2 req) s' = [delete_not_found] ∧
  store_after (deletePlace env2 req) s' = s'.
Proof.
  intros Hok s'.
  assert (Hgone : places s' !! params_pid req = None).
  { destruct (deletePlace_deleted_inv _ _ _ Hok) as (p & u & Hc).
    subst s'. destruct (deletePlace_commit _ _ _ _ _ Hc) as [-> _].
    apply lookup_delete_eq. }
  clearbody s'. unfold replies.
  apply (wp_run _ _ (fun s2 l =>
    filter (fun ev => is_reply ev = true) l = [delete_not_found] ∧ s2 = s')).
  wp_run_all; try done; congruence.
Qed.

Lemma deletePlace_twice_witness :
  let rq := Sample.request "p1" "u1" in
  let s' := store_after (deletePlace Sample.env rq) Sample.store in
  replies (deletePlace Sample.env rq) s' = [delete_not_found] ∧
  store_after (deletePlace Sample.env rq) s' = s'.
Proof.
  intros rq.
  apply (deletePlace_twice Sample.env Sample.env rq Sample.store).
  apply list_elem_of_In. vm_compute. tauto.
Defined.

(** X17: Whatever the request and whatever happens, [deletePlace] touches no
    place but the one named and no user but the caller; of the caller
    it changes nothing but [places], from which only the named id can
    disappear. *)
Theorem deletePlace_touches_nothing_else env req s :
  let s' := store_after (deletePlace env req) s in
  (∀ pid, pid ≠ params_pid req → places s' !! pid = places s !! pid) ∧
  (∀ uid, uid ≠ userData_userId req → users s' !! uid = users s !! uid) ∧
  (∀ uid, set_places [] <$> users s' !! uid = set_places [] <$> users s !! uid) ∧
  (∀ uid u u' x, users s !! uid = Some u → users s' !! uid = Some u' →
     x ≠ params_pid req → (x ∈ u_places u' ↔ x ∈ u_places u)).
Proof.
  intros s'. subst s'.
  destruct (deletePlace_all_or_nothing env req s) as [-> | (p & u & Hc)].
  - repeat split; try done; intros; simplify_eq; done.
  - destruct (deletePlace_commit _ _ _ _ _ Hc) as [-> _].
    destruct Hc as (Hp & Hu & Hcaller & _). rewrite Hcaller in *. simpl.
    split; [intros pid Hne; by rewrite lookup_delete_ne|].
    split; [intros uid Hne; by rewrite lookup_alter_ne|].
    split.
    + intros uid. destruct (decide (userData_userId req = uid)) as [<-|Hne].
      * by rewrite lookup_alter_eq, Hu.
      * by rewrite lookup_alter_ne.
    + intros uid v v' x Hv Hv' Hx.
      destruct (decide (userData_userId req = uid)) as [<-|Hne].
      * rewrite lookup_alter_eq, Hv in Hv'. injection Hv' as <-. simpl.
        rewrite elem_of_pull. rewrite Hu in Hv. injection Hv as <-.
        split; [by intros [? _] | by intros].
      * rewrite lookup_alter_ne, Hv in Hv' by done. by injection Hv' as <-.
Qed.

(** ** [createPlace], beyond its claims *)

(** X18: Whatever the request and whatever happens, [createPlace] never
    changes or removes a place that exists, touches no user but the
    caller, and of the caller changes nothing but [places], which it
    can only extend at its end. *)
Theorem createPlace_touches_nothing_else env req s :
  let s' := store_after (createPlace env req) s in
  (∀ pid p, places s !! pid = Some p → places s' !! pid = Some p) ∧
  (∀ pid, pid ≠ new_ObjectId env → places s' !! pid = places s !! pid) ∧
  (∀ uid, uid ≠ userData_userId req → users s' !! uid = users s !! uid) ∧
  (∀ uid, set_places [] <$> users s' !! uid = set_places [] <$> users s !! uid) ∧
  (∀ uid u u', users s !! uid = Some u → users s' !! uid = Some u' →
     u_places u `prefix_of` u_places u').
Proof.
  intros s'. subst s'.
  destruct (createPlace_all_or_nothing env req s) as [-> | (c & r & u & Hc & ->)].
  - repeat split; try done. intros uid u u' Hu Hu'. by simplify_eq.
  - destruct Hc as (_ & _ & _ & Hu & Hfresh & _). simpl.
    split.
    { intros pid p Hp. rewrite lookup_insert_ne; [done|]. congruence. }
    split; [intros pid Hne; by rewrite lookup_insert_ne|].
    split; [intros uid Hne; by rewrite lookup_alter_ne|].
    split.
    + intros uid. destruct (decide (userData_userId req = uid)) as [<-|Hne].
      * by rewrite lookup_alter_eq, Hu.
      * by rewrite lookup_alter_ne.
    + intros uid v v' Hv Hv'.
      destruct (decide (userData_userId req = uid)) as [<-|Hne].
      * rewrite lookup_alter_eq, Hv in Hv'. injection Hv' as <-. simpl.
        simplify_eq. by eexists.
      * rewrite lookup_alter_ne, Hv in Hv' by done. by injection Hv' as <-.
Qed.

(** X19: The place a successful [createPlace] answers with is the place
    [getPlaceById] sends for the new id afterwards. *)
Theorem create_then_get env env2 req req2 s body :
  Respond 201 body ∈ log_of (createPlace env req) s ->
  rejects env2 PlaceFindById = false ->
  params_pid req2 = new_ObjectId env ->
  replies (getPlaceById env2 req2) (store_after (createPlace env req) s) =
    [Respond 200 body].
Proof.
  intros Hok Hfind Hpid.
  destruct (createPlace_created_inv _ _ _ _ Hok) as (c & r & u & Hc).
  destruct (createPlace_commit _ _ _ _ _ _ Hc) as [-> Hl].
  rewrite Hl in Hok. unfold createPlace_calls in Hok. simpl in Hok.
  in_log Hok. apply Respond_inj in Hok as [_ ->].
  unfold replies.
  apply (wp_run _ _ (fun _ l => filter (fun ev => is_reply ev = true) l = _)).
  wp_run_all; try congruence.
  all: simpl in *; rewrite Hpid, lookup_insert_eq in *; simplify_eq/=; done.
Qed.

Lemma create_then_get_witness :
  let rq := Sample.request "p1" "u1" in
  let body := created_response Sample.env rq
                (mkCoordinates "37.422" "-122.084" "12 Main St")
                (mkUploadResult "https://ik.imagekit.io/places/cafe" "file-cafe") in
  replies (getPlaceById Sample.env (Sample.request "p2" "u2"))
          (store_after (createPlace Sample.env rq) Sample.store) =
    [Respond 200 body].
Proof.
  intros rq body.
  apply (create_then_get Sample.env Sample.env rq (Sample.request "p2" "u2")
           Sample.store body).
  - apply list_elem_of_In. vm_compute. tauto.
  - reflexivity.
  - reflexivity.
Defined.

(** Pulling an id that was just pushed gives the list back. *)
Lemma pull_push (l : list string) (id : string) :
  id ∉ l -> filter (fun x => x ≠ id) (l ++ [id]) = l.
Proof.
  intros Hnotin. rewrite filter_app, filter_cons_False, filter_nil, app_nil_r
    by (intros Hne; by apply Hne).
  induction l as [|x l IH]; [done|].
  apply not_elem_of_cons in Hnotin as [Hne Hl].
  rewrite filter_cons_True by done. f_equal. by apply IH.
Qed.

(** X20: In a store with referential integrity, creating a place and then
    deleting it (by the same caller, nothing being rejected) gives back
    the store one started from; and the file the image store is asked
    to delete is the one the upload had returned. *)
Theorem create_then_delete_restores_store env env2 req req2 s body :
  integrity s ->
  Respond 201 body ∈ log_of (createPlace env req) s ->
  params_pid req2 = new_ObjectId env ->
  userData_userId req2 = userData_userId req ->
  (∀ c, rejects env2 c = false) ->
  let s' := store_after (createPlace env req) s in
  store_after (deletePlace env2 req2) s' = s ∧
  replies (deletePlace env2 req2) s' = [deleted] ∧
  ∃ b r, file_buffer req = Some b ∧
         imagekit_upload env b (toLowerCase (body_title req)) = inr r ∧
         DeleteFile (r_fileId r) ∈ log_of (deletePlace env2 req2) s'.
Proof.
  intros [_ Hrefs] Hok Hpid Huid Hquiet s'. subst s'.
  destruct (createPlace_created_inv _ _ _ _ Hok) as (c & r & u & Hc).
  destruct (createPlace_commit _ _ _ _ _ _ Hc) as [-> _].
  destruct Hc as (_ & _ & (b & Hb & Hr) & Hu & Hfresh & _).
  set (s' := mkStore _ _).
  assert (Hd : delete_commits env2 req2 s' (created_place req c r)
                 (set_places (u_places u ++ [new_ObjectId env]) u)).
  { repeat split; try apply Hquiet; subst s'; simpl.
    - rewrite Hpid. apply lookup_insert_eq.
    - by rewrite lookup_alter_eq, Hu.
    - done. }
  destruct (deletePlace_commit _ _ _ _ _ Hd) as [Hs Hreplies].
  split; [|split; [done|]].
  - rewrite Hs. subst s'. simpl. rewrite Hpid.
    assert (Hnotin : new_ObjectId env ∉ u_places u).
    { intros Hin. destruct (Hrefs _ _ _ Hu Hin) as (q & Hq & _). congruence. }
    destruct s as [ps us]. simpl in *. f_equal.
    + by apply delete_insert_id.
    + apply map_eq. intros uid.
      destruct (decide (userData_userId req = uid)) as [<-|Hne].
      * rewrite !lookup_alter_eq, Hu. simpl. rewrite pull_push by done.
        by destruct u.
      * by rewrite !lookup_alter_ne.
  - exists b, r. repeat split; try done.
    assert (Hin : DeleteFile (r_fileId r) ∈ calls (deletePlace env2 req2) s').
    { rewrite (deletePlace_commit_calls _ _ _ _ _ Hd). simpl.
      do 5 right. left. }
    unfold calls in Hin. by apply list_elem_of_filter in Hin as [_ ?].
Qed.

Lemma create_then_delete_restores_store_witness :
  let rq := Sample.request "p1" "u1" in
  let s' := store_after (createPlace Sample.env rq) Sample.store in
  store_after (deletePlace Sample.env (Sample.request "p2" "u1")) s' = Sample.store ∧
  replies (deletePlace Sample.env (Sample.request "p2" "u1")) s' = [deleted].
Proof.
  intros rq.
  destruct (create_then_delete_restores_store Sample.env Sample.env rq
              (Sample.request "p2" "u1") Sample.store
              (created_response Sample.env rq
                 (mkCoordinates "37.422" "-122.084" "12 Main St")
                 (mkUploadResult "https://ik.imagekit.io/places/cafe" "file-cafe"))
              sample_store_integrity) as (Hs & Hr & _).
  - apply list_elem_of_In. vm_compute. tauto.
  - reflexivity.
  - reflexivity.
  - reflexivity.
  - split; [exact Hs | exact Hr].
Defined.

(** ** One answer per request *)

(** X21: The three read handlers and [createPlace] answer every request
    exactly once; [updatePlace] and [deletePlace] answer once, or not
    at all when they end in an uncaught error. *)
Theorem handlers_answer_at_most_once env req s :
  (∃ ev, replies (getAllPlaces env req) s = [ev]) ∧
  (∃ ev, replies (getPlaceById env req) s = [ev]) ∧
  (∃ ev, replies (getPlacesByUserId env req) s = [ev]) ∧
  (∃ ev, replies (createPlace env req) s = [ev]) ∧
  ((∃ ev, replies (updatePlace env req) s = [ev]) ∨
   (replies (updatePlace env req) s = [] ∧
    ∃ e, snd (run (updatePlace env req) s) = Throw e)) ∧
  ((∃ ev, replies (deletePlace env req) s = [ev]) ∨
   (replies (deletePlace env req) s = [] ∧
    ∃ e, snd (run (deletePlace env req) s) = Throw e)).
Proof.
  unfold replies.
  split; [|split; [|split; [|split; [|split]]]].
  - apply (wp_run _ _ (fun _ l =>
      ∃ ev, filter (fun ev => is_reply ev = true) l = [ev])).
    wp_run_all; by eexists.
  - apply (wp_run _ _ (fun _ l =>
      ∃ ev, filter (fun ev => is_reply ev = true) l = [ev])).
    wp_run_all; by eexists.
  - apply (wp_run _ _ (fun _ l =>
      ∃ ev, filter (fun ev => is_reply ev = true) l = [ev])).
    wp_run_all; by eexists.
  - apply (wp_run _ _ (fun _ l =>
      ∃ ev, filter (fun ev => is_reply ev = true) l = [ev])).
    wp_run_all; by eexists.
  - unfold log_of.
    apply (wp_run_completion _ _ (fun w r =>
      (∃ ev, filter (fun ev => is_reply ev = true) (log w) = [ev]) ∨
      (filter (fun ev => is_reply ev = true) (log w) = [] ∧ ∃ e, r = Throw e))).
    wp_run_all; first [by left; eexists | by right; split; [|eexists]].
  - unfold log_of.
    apply (wp_run_completion _ _ (fun w r =>
      (∃ ev, filter (fun ev => is_reply ev = true) (log w) = [ev]) ∨
      (filter (fun ev => is_reply ev = true) (log w) = [] ∧ ∃ e, r = Throw e))).
    wp_run_all; first [by left; eexists | by right; split; [|eexists]].
Qed.

(** X22: In a store with referential integrity every place has its creator,
    so [deletePlace] never ends in the uncaught error: it answers every
    request exactly once. *)
Theorem deletePlace_answers_in_consistent_store env req s :
  integrity s ->
  ∃ ev, replies (deletePlace env req) s = [ev].
Proof.
  intros [Hplaces _]. unfold replies.
  apply (wp_run _ _ (fun _ l =>
    ∃ ev, filter (fun ev => is_reply ev = true) l = [ev])).
  wp_run_all; try (by eexists).
  match goal with
  | Hp : places s !! _ = Some ?p, Hu : users s !! p_creator ?p = None |- _ =>
      destruct (Hplaces _ _ Hp) as (u & Hu' & _); congruence
  end.
Qed.

Lemma deletePlace_answers_in_consistent_store_witness :
  ∃ ev, replies (deletePlace Sample.env (Sample.request "p1" "u2")) Sample.store
        = [ev].
Proof.
  exact (deletePlace_answers_in_consistent_store Sample.env
           (Sample.request "p1" "u2") Sample.store sample_store_integrity).
Defined.

(** X23: A 201 of [createPlace] means that the geocoder and the image store
    answered and that the seven calls were made once each, in order.
    The place stored and sent has the title and description of the
    request, the address and coordinates the geocoder returned, and the
    url the upload returned; the storage handle is stored, not sent. *)
Theorem createPlace_success_content env req s body :
  Respond 201 body ∈ log_of (createPlace env req) s ->
  ∃ c b r,
    getCoordinatesForAddress env (body_address req) = inr c ∧
    file_buffer req = Some b ∧
    imagekit_upload env b (toLowerCase (body_title req)) = inr r ∧
    places (store_after (createPlace env req) s) !! new_ObjectId env =
      Some (mkPlace (body_title req) (body_description req) (r_url r) (r_fileId r)
                    (c_address c) (c_lat c) (c_lng c) (userData_userId req)) ∧
    body = JObj [("place",
                  place_json (new_ObjectId env)
                    (mkPlace (body_title req) (body_description req) (r_url r)
                             (r_fileId r) (c_address c) (c_lat c) (c_lng c)
                             (userData_userId req)))] ∧
    calls (createPlace env req) s = createPlace_calls req.
Proof.
  intros Hok.
  destruct (createPlace_created_inv _ _ _ _ Hok) as (c & r & u & Hc).
  destruct (createPlace_commit _ _ _ _ _ _ Hc) as [Hs Hl].
  destruct Hc as (_ & Hg & (b & Hb & Hr) & _).
  exists c, b, r. repeat split; try done.
  - rewrite Hs. simpl. apply lookup_insert_eq.
  - rewrite Hl in Hok. unfold createPlace_calls in Hok. simpl in Hok.
    in_log Hok. by apply Respond_inj in Hok as [_ ->].
  - unfold calls. by rewrite Hl.
Qed.

Lemma createPlace_success_content_witness :
  let rq := Sample.request "p1" "u1" in
  places (store_after (createPlace Sample.env rq) Sample.store) !! "p2" =
    Some (mkPlace "Cafe" "Good coffee" "https://ik.imagekit.io/places/cafe"
                  "file-cafe" "12 Main St" "37.422" "-122.084" "u1") ∧
  calls (createPlace Sample.env rq) Sample.store = createPlace_calls rq.
Proof.
  intros rq.
  destruct (createPlace_success_content Sample.env rq Sample.store
              (created_response Sample.env rq
                 (mkCoordinates "37.422" "-122.084" "12 Main St")
                 (mkUploadResult "https://ik.imagekit.io/places/cafe" "file-cafe")))
    as (c & b & r & Hg & Hb & Hr & Hp & _ & Hcalls).
  - apply list_elem_of_In. vm_compute. tauto.
  - split; [|exact Hcalls].
    injection Hg as <-. injection Hb as <-. injection Hr as <-. exact Hp.
Defined.
